(** * OrderProcessor: a shallow embedding of [src/OrderProcessor.ts]

    The TypeScript class [OrderProcessor] keeps a list of order items, a
    discount flag and a payment status, and drives a checkout against three
    injected services.  This file embeds the class in Rocq and states the
    properties of the order workflow over that embedding.

    Conventions of the embedding.

    - A JavaScript [number] is an IEEE 754 binary64 value: it is Rocq's
      primitive [float], whose [+], [*], [<=?], [<?] and [=?] are the
      JavaScript operators [+], [*], [<=], [<] and [===] on numbers.
    - A method of the class is a function on the fields of the object.  The
      methods that talk to the outside (the console and the injected
      services) also take and return the log of everything that happened so
      far, in chronological order.
    - The injected services are parameters.  What a service answers may depend
      on everything it has seen before, so each answering method receives the
      log.  Following the interface contract, [checkStock] and [charge]
      resolve to a boolean, [reduceStock] resolves or rejects, and the two
      notification methods resolve.
    - Objects are modelled by value.  The services do not touch the
      processor's fields, no other method runs while [processOrder] awaits a
      service, and the caller does not mutate an item after handing it to
      [addItem]. *)

From Stdlib Require Import ZArith QArith Qabs List String Ascii Bool Lia Floats.
From Stdlib Require Uint63.
Import ListNotations.

Set Warnings "-inexact-float".

Local Close Scope Q_scope.
Local Open Scope string_scope.
Local Open Scope list_scope.

(** ** JavaScript numbers *)

Module Number.

Definition number : Type := float.

(** The string [x.toFixed(2)] returns, kept in structured form: the text
    [NaN], a signed [Infinity], the digits of an integer number [n] of
    hundredths (printed with the point before the last two digits, after a
    minus sign when [neg]), or, for a magnitude of at least 10^21, the
    ordinary [String(x)]. *)
Inductive FixedString : Type :=
| StrNaN
| StrInfinity (neg : bool)
| StrFixed (neg : bool) (n : Z)
| StrToString (x : number).

(** [m * 2^e >= 10^21], on the exact value. *)
Definition atLeast1e21 (m : positive) (e : Z) : bool :=
  if (0 <=? e)%Z then (10 ^ 21 <=? Zpos m * 2 ^ e)%Z
  else (10 ^ 21 * 2 ^ (- e) <=? Zpos m)%Z.

(** ECMAScript, Number.prototype.toFixed: "let n be an integer for which
    n / 10^f - x is as close to zero as possible; if there are two such n,
    pick the larger n", for f = 2 and x = m * 2^e > 0. *)
Definition nearestHundredths (m : positive) (e : Z) : Z :=
  if (0 <=? e)%Z then (100 * Zpos m * 2 ^ e)%Z
  else ((200 * Zpos m + 2 ^ (- e)) / 2 ^ (1 - e))%Z.

(** [x.toFixed(2)].  A negative zero is not [< 0], so it prints unsigned. *)
Definition toFixed2 (x : number) : FixedString :=
  match Prim2SF x with
  | S754_nan => StrNaN
  | S754_infinity s => StrInfinity s
  | S754_zero _ => StrFixed false 0
  | S754_finite s m e =>
      if atLeast1e21 m e then StrToString x
      else StrFixed s (nearestHundredths m e)
  end.

(** The binary64 value nearest to [n / 100] (ties to even), with sign [neg]:
    the number a decimal literal with two decimals denotes. *)
Definition ofHundredths (neg : bool) (n : Z) : number :=
  match n with
  | Z0 => if neg then neg_zero else zero
  | Zpos p =>
      SF2Prim (SFdiv prec emax (S754_finite neg p 0) (S754_finite false 100 0))
  | Zneg _ => nan
  end.

(** [parseFloat] on the strings [toFixed] produces.  [String(x)] reads back
    as [x]. *)
Definition parseFloat (s : FixedString) : number :=
  match s with
  | StrNaN => nan
  | StrInfinity neg => if neg then neg_infinity else infinity
  | StrFixed neg n => ofHundredths neg n
  | StrToString x => x
  end.

(** The exact value [m * 2^e] of the magnitude of a finite number. *)
Definition magnitude (m : positive) (e : Z) : Q :=
  if (0 <=? e)%Z then inject_Z (Zpos m * 2 ^ e)
  else (Zpos m # Z.to_pos (2 ^ (- e)))%Q.

(** The exact rational value of a finite number (0 for the others). *)
Definition exactValue (x : number) : Q :=
  match Prim2SF x with
  | S754_finite s m e => if s then (- magnitude m e)%Q else magnitude m e
  | _ => 0%Q
  end.

(** [n / 100] is as close to [x] as a number of hundredths can be, and [n] is
    the larger one when two are equally close. *)
Definition isNearestHundredth (x : Q) (n : Z) : Prop :=
  forall k : Z,
    (Qabs ((n # 100) - x) <= Qabs ((k # 100) - x))%Q
    /\ (Qabs ((k # 100) - x) == Qabs ((n # 100) - x) -> (k <= n)%Z)%Q.

End Number.
Import Number.

Bind Scope float_scope with number.

(** ** The data model ([common/types.ts] and the fields of the class) *)

Record IOrderItem : Type := mkItem {
  id : string;
  name : string;
  price : number;
  quantity : number
}.

Inductive PaymentStatus : Type := pending | paid | failed.

Record OrderProcessor : Type := mkOrderProcessor {
  items : list IOrderItem;
  customerEmail : string;
  discountApplied : bool;
  paymentStatus : PaymentStatus;
  orderId : string
}.

Definition setItems (l : list IOrderItem) (this : OrderProcessor) : OrderProcessor :=
  mkOrderProcessor l (customerEmail this) (discountApplied this)
                   (paymentStatus this) (orderId this).

Definition setDiscountApplied (b : bool) (this : OrderProcessor) : OrderProcessor :=
  mkOrderProcessor (items this) (customerEmail this) b
                   (paymentStatus this) (orderId this).

Definition setPaymentStatus (s : PaymentStatus) (this : OrderProcessor) : OrderProcessor :=
  mkOrderProcessor (items this) (customerEmail this) (discountApplied this)
                   s (orderId this).

(** The object literal handed to [sendOrderConfirmation]. *)
Record OrderDetails : Type := mkOrderDetails {
  details_orderId : string;
  details_items : list IOrderItem;
  details_totalAmount : number;
  details_status : PaymentStatus
}.

(** A value thrown by a rejected [reduceStock]. *)
Inductive JsError : Type := mkJsError (message : string).

(** Everything the processor does to the outside world. *)
Inductive Event : Type :=
| CheckStock (itemId : string) (qty : number)
| ReduceStock (itemId : string) (qty : number)
| Charge (amount : number) (email : string) (order : string)
| SendOrderConfirmation (email : string) (details : OrderDetails)
| SendPaymentFailedNotification (email : string) (reason : string)
| ConsoleWarn (msg : string)
| ConsoleError (msg : string) (cause : option JsError).

Definition Log : Type := list Event.

(** The injected services.  [reduceStock] answers [None] when it resolves and
    [Some err] when it rejects with [err]. *)
Record IInventoryService : Type := mkInventory {
  checkStock : Log -> string -> number -> bool;
  reduceStock : Log -> string -> number -> option JsError
}.

Record IPaymentGateway : Type := mkGateway {
  charge : Log -> number -> string -> string -> bool
}.

(** ** The methods that stay inside the object *)

(** [customerEmail.includes('@')] *)
Fixpoint includesAt (s : string) : bool :=
  match s with
  | EmptyString => false
  | String c rest => Ascii.eqb c "@"%char || includesAt rest
  end.

(** The constructor; [uuid] is what [uuidV4()] returns and [inl] is the
    thrown error.  The empty string is the only falsy string. *)
Definition construct (customerEmail uuid : string) : string + OrderProcessor :=
  if String.eqb customerEmail "" || negb (includesAt customerEmail)
  then inl "Некорректный email покупателя."
  else inr (mkOrderProcessor [] customerEmail false pending uuid).

Definition getOrderId (this : OrderProcessor) : string := orderId this.

(** [existingItem.quantity += qty] on the first item whose id is [itemId]. *)
Fixpoint addQuantity (itemId : string) (qty : number) (l : list IOrderItem)
  : list IOrderItem :=
  match l with
  | [] => []
  | i :: rest =>
      if String.eqb (id i) itemId
      then mkItem (id i) (name i) (price i) (quantity i + qty)%float :: rest
      else i :: addQuantity itemId qty rest
  end.

Definition addItem (item : IOrderItem) (w : OrderProcessor * Log)
  : OrderProcessor * Log :=
  let (this, log) := w in
  if (quantity item <=? 0)%float || (price item <? 0)%float then
    (this, log ++ [ConsoleWarn ("Попытка добавить товар " ++ name item
                     ++ " с некорректным количеством или ценой.")])
  else
    match find (fun i => String.eqb (id i) (id item)) (items this) with
    | Some existingItem =>
        (setItems (addQuantity (id item) (quantity item) (items this)) this, log)
    | None => (setItems (items this ++ [item]) this, log)
    end.

(** [this.items.splice(itemIndex, 1)] at the first item whose id is [itemId];
    [None] when [findIndex] answers -1. *)
Fixpoint spliceFirst (itemId : string) (l : list IOrderItem)
  : option (list IOrderItem) :=
  match l with
  | [] => None
  | i :: rest =>
      if String.eqb (id i) itemId then Some rest
      else option_map (cons i) (spliceFirst itemId rest)
  end.

Definition removeItem (itemId : string) (w : OrderProcessor * Log)
  : OrderProcessor * Log :=
  let (this, log) := w in
  match spliceFirst itemId (items this) with
  | Some l => (setItems l this, log)
  | None =>
      (this, log ++ [ConsoleWarn ("Товар с ID " ++ itemId ++ " не найден в заказе.")])
  end.

Definition calculateTotal (this : OrderProcessor) : number :=
  let total :=
    fold_left (fun sum item => (sum + price item * quantity item)%float)
              (items this) 0%float in
  let total := if discountApplied this then (total * 0.9)%float else total in
  parseFloat (toFixed2 total).

Definition applyDiscount (discountCode : string) (this : OrderProcessor)
  : bool * OrderProcessor :=
  if String.eqb discountCode "SALE10" && negb (discountApplied this)
  then (true, setDiscountApplied true this)
  else (false, this).

(** [getOrderStatus] reads the fields and calls [calculateTotal]; the
    interpolated values are returned in place of the formatted text. *)
Definition getOrderStatus (this : OrderProcessor)
  : string * string * nat * FixedString * bool * PaymentStatus :=
  let total := calculateTotal this in
  (orderId this, customerEmail this, List.length (items this), toFixed2 total,
   discountApplied this, paymentStatus this).

(** ** Checkout *)

Section Checkout.

Variable inventoryService : IInventoryService.
Variable paymentGateway : IPaymentGateway.

(** The first [for] loop of [processOrder].  [Some false] is the [return
    false] inside the loop body; [None] means the loop ran to its end. *)
Fixpoint stockCheckLoop (l : list IOrderItem) (w : OrderProcessor * Log)
  : option bool * (OrderProcessor * Log) :=
  match l with
  | [] => (None, w)
  | item :: rest =>
      let (this, log) := w in
      let isInStock := checkStock inventoryService log (id item) (quantity item) in
      let log := log ++ [CheckStock (id item) (quantity item)] in
      if negb isInStock then
        let log := log ++ [ConsoleError
                     ("Товар " ++ name item ++ " (ID: " ++ id item
                      ++ ") отсутствует на складе в нужном количестве.") None] in
        let this := setPaymentStatus failed this in
        let log := log ++ [SendPaymentFailedNotification (customerEmail this)
                     ("Товар " ++ name item ++ " отсутствует")] in
        (Some false, (this, log))
      else stockCheckLoop rest (this, log)
  end.

(** The [for] loop inside the [try] block; [Some err] is the error thrown
    by the first [reduceStock] that rejects. *)
Fixpoint reduceStockLoop (l : list IOrderItem) (log : Log)
  : option JsError * Log :=
  match l with
  | [] => (None, log)
  | item :: rest =>
      let r := reduceStock inventoryService log (id item) (quantity item) in
      let log := log ++ [ReduceStock (id item) (quantity item)] in
      match r with
      | Some err => (Some err, log)
      | None => reduceStockLoop rest log
      end
  end.

Definition processOrder (w : OrderProcessor * Log)
  : bool * (OrderProcessor * Log) :=
  let (this, log) := w in
  if (List.length (items this) =? 0)%nat then
    (false, (this, log ++ [ConsoleError "Заказ пуст. Невозможно обработать." None]))
  else
    match stockCheckLoop (items this) (this, log) with
    | (Some r, w) => (r, w)
    | (None, (this, log)) =>
        let totalAmount := calculateTotal this in
        let payment : option bool * (OrderProcessor * Log) :=
          if (totalAmount <=? 0)%float && (0 <? List.length (items this))%nat then
            let log := log ++ [ConsoleWarn
              "Общая сумма заказа равна 0, но товары есть. Пропускаем оплату."] in
            (None, (setPaymentStatus paid this, log))
          else if (0 <? totalAmount)%float then
            let paymentSuccessful :=
              charge paymentGateway log totalAmount (customerEmail this) (orderId this) in
            let log := log ++ [Charge totalAmount (customerEmail this) (orderId this)] in
            if negb paymentSuccessful then
              let this := setPaymentStatus failed this in
              let log := log ++ [ConsoleError
                ("Оплата заказа " ++ orderId this ++ " не удалась.") None] in
              let log := log ++ [SendPaymentFailedNotification
                                   (customerEmail this) (orderId this)] in
              (Some false, (this, log))
            else (None, (setPaymentStatus paid this, log))
          else (None, (this, log)) in
        match payment with
        | (Some r, w) => (r, w)
        | (None, (this, log)) =>
            let log :=
              match paymentStatus this with
              | paid =>
                  match reduceStockLoop (items this) log with
                  | (None, log) => log
                  | (Some error, log) =>
                      log ++ [ConsoleError
                        ("Критическая ошибка: не удалось уменьшить остатки для заказа "
                         ++ orderId this ++ " после оплаты.") (Some error)]
                  end
              | _ => log
              end in
            let log := log ++ [SendOrderConfirmation (customerEmail this)
                         (mkOrderDetails (orderId this) (items this)
                                         totalAmount (paymentStatus this))] in
            (true, (this, log))
        end
    end.

(** A call of a public method, and a sequence of calls on one instance. *)
Inductive Call : Type :=
| CallGetOrderId
| CallAddItem (item : IOrderItem)
| CallRemoveItem (itemId : string)
| CallCalculateTotal
| CallApplyDiscount (discountCode : string)
| CallProcessOrder
| CallGetOrderStatus.

Definition invoke (c : Call) (w : OrderProcessor * Log) : OrderProcessor * Log :=
  match c with
  | CallGetOrderId => w
  | CallAddItem item => addItem item w
  | CallRemoveItem itemId => removeItem itemId w
  | CallCalculateTotal => w
  | CallApplyDiscount code => (snd (applyDiscount code (fst w)), snd w)
  | CallProcessOrder => snd (processOrder w)
  | CallGetOrderStatus => w
  end.

Definition invokeAll (cs : list Call) (w : OrderProcessor * Log)
  : OrderProcessor * Log :=
  fold_left (fun w c => invoke c w) cs w.

End Checkout.

(** ** Vocabulary of the statements *)

Definition checkStockCalls (l : list IOrderItem) : Log :=
  map (fun i => CheckStock (id i) (quantity i)) l.

Definition reduceStockCalls (l : list IOrderItem) : Log :=
  map (fun i => ReduceStock (id i) (quantity i)) l.

(** Every stock check of the items [l], asked one after the other starting
    from the log [log], resolves to true. *)
Definition inStockAlong (inv : IInventoryService) (log : Log) (l : list IOrderItem)
  : Prop :=
  forall pre item post, l = pre ++ item :: post ->
    checkStock inv (log ++ checkStockCalls pre) (id item) (quantity item) = true.

(** Every stock reduction of the items [l], asked one after the other
    starting from the log [log], resolves. *)
Definition reducedAlong (inv : IInventoryService) (log : Log) (l : list IOrderItem)
  : Prop :=
  forall pre item post, l = pre ++ item :: post ->
    reduceStock inv (log ++ reduceStockCalls pre) (id item) (quantity item) = None.

Definition outOfStockMessage (item : IOrderItem) : string :=
  "Товар " ++ name item ++ " (ID: " ++ id item
  ++ ") отсутствует на складе в нужном количестве.".

Definition paymentFailedMessage (this : OrderProcessor) : string :=
  "Оплата заказа " ++ orderId this ++ " не удалась.".

Definition paymentSkippedMessage : string :=
  "Общая сумма заказа равна 0, но товары есть. Пропускаем оплату.".

Definition criticalMessage (this : OrderProcessor) : string :=
  "Критическая ошибка: не удалось уменьшить остатки для заказа "
  ++ orderId this ++ " после оплаты.".

(** The confirmation a checkout sends for the order [this] once the payment
    status is [status]. *)
Definition confirmation (this : OrderProcessor) (status : PaymentStatus) : Event :=
  SendOrderConfirmation (customerEmail this)
    (mkOrderDetails (orderId this) (items this) (calculateTotal this) status).

(** What the specification asks of a stored item: a quantity greater than 0
    and a price of at least 0. *)
Definition storedItemOk (i : IOrderItem) : Prop :=
  (0 <? quantity i)%float = true /\ (0 <=? price i)%float = true.

(** A positive value of the binary64 specification. *)
Definition SFpositive (x : spec_float) : Prop :=
  SFltb (S754_zero false) x = true.

(** The total in the words of the specification, over the exact values of
    the stored prices and quantities: the sum of price times quantity, times
    0.9 under a discount, rounded to hundredths with halves away from zero;
    the result is the number the two-decimal literal denotes. *)
Definition exactSum (l : list IOrderItem) : Q :=
  fold_left (fun sum item =>
               (sum + exactValue (price item) * exactValue (quantity item))%Q)
            l 0%Q.

Definition roundHalfAwayFromZero (q : Q) : Z :=
  let n := ((2 * Z.abs (Qnum q) + QDen q) / (2 * QDen q))%Z in
  if (Qnum q <? 0)%Z then (- n)%Z else n.

Definition statedTotal (this : OrderProcessor) : number :=
  let sum := exactSum (items this) in
  let total := if discountApplied this then (sum * (9 # 10))%Q else sum in
  let n := roundHalfAwayFromZero (100 * total)%Q in
  ofHundredths (n <? 0)%Z (Z.abs n).

(** How the payment status comes to be [paid] at the end of the payment step
    of a checkout of [this], when that step starts from the log [log]; the
    index is what the step adds to the log.  Either the total is not positive
    and payment is skipped, or the charge succeeds, or the total compares
    neither way with 0 (it is NaN), nothing is done and the status was [paid]
    already. *)
Inductive becomesPaid (gw : IPaymentGateway) (this : OrderProcessor) (log : Log)
  : Log -> Prop :=
| PaidBySkipping :
    (calculateTotal this <=? 0)%float = true ->
    becomesPaid gw this log [ConsoleWarn paymentSkippedMessage]
| PaidByCharge :
    (0 <? calculateTotal this)%float = true ->
    charge gw log (calculateTotal this) (customerEmail this) (orderId this) = true ->
    becomesPaid gw this log
      [Charge (calculateTotal this) (customerEmail this) (orderId this)]
| PaidBefore :
    (calculateTotal this <=? 0)%float = false ->
    (0 <? calculateTotal this)%float = false ->
    paymentStatus this = paid ->
    becomesPaid gw this log [].

Definition isCharge (ev : Event) : bool :=
  match ev with Charge _ _ _ => true | _ => false end.

(** Two states of the processor that differ at most in the payment status. *)
Definition sameOrder (a b : OrderProcessor) : Prop :=
  items a = items b /\ discountApplied a = discountApplied b
  /\ customerEmail a = customerEmail b /\ orderId a = orderId b.

(** ** Sample orders and services

    The data of the repository's tests: two products in the order, services
    that always succeed, and services that fail in one way each. *)

Definition sampleOrder : OrderProcessor :=
  mkOrderProcessor [] "test@example.com" false pending "order-1".

Definition prod1 : IOrderItem := mkItem "prod1" "Test Item prod1" 50 2.
Definition prod2 : IOrderItem := mkItem "prod2" "Test Item prod2" 75 1.
Definition freeItem : IOrderItem := mkItem "freeItem" "Test Item freeItem" 0 1.

Definition twoItems : OrderProcessor := setItems [prod1; prod2] sampleOrder.
Definition freeOrder : OrderProcessor := setItems [freeItem] sampleOrder.

(** An item whose quantity is not a number, as [parseInt] of a bad form field
    gives it. *)
Definition nanItem : IOrderItem := mkItem "item1" "Test Item item1" 100 nan.

(** One and five thousandths: the exact values add up to more than 1.005. *)
Definition halfCentOrder : OrderProcessor :=
  setItems [mkItem "a" "Test Item a" 1 1; mkItem "b" "Test Item b" 0.005 1]%float
           sampleOrder.

Definition stocked : IInventoryService :=
  mkInventory (fun _ _ _ => true) (fun _ _ _ => None).

Definition lacksProd2 : IInventoryService :=
  mkInventory (fun _ itemId _ => negb (String.eqb itemId "prod2"))
              (fun _ _ _ => None).

Definition dbError : JsError := mkJsError "Ошибка базы данных склада".

Definition brokenWarehouse : IInventoryService :=
  mkInventory (fun _ _ _ => true) (fun _ _ _ => Some dbError).

Definition accepts : IPaymentGateway := mkGateway (fun _ _ _ _ => true).
Definition declines : IPaymentGateway := mkGateway (fun _ _ _ _ => false).

(** A gateway that declines the first charge it sees and accepts a retry, and
    one that accepts the first charge and declines the next. *)
Definition declinesFirst : IPaymentGateway :=
  mkGateway (fun log _ _ _ => existsb isCharge log).
Definition acceptsFirst : IPaymentGateway :=
  mkGateway (fun log _ _ _ => negb (existsb isCharge log)).

Definition afterDeclined : OrderProcessor * Log :=
  invokeAll stocked declinesFirst [CallAddItem prod1; CallProcessOrder]
            (sampleOrder, []).
Definition afterAccepted : OrderProcessor * Log :=
  invokeAll stocked acceptsFirst [CallAddItem prod1; CallProcessOrder]
            (sampleOrder, []).

(** ** Vocabulary of the further properties *)

(** The string holds the character [@]. *)
Definition containsAt (s : string) : Prop :=
  exists a b : string, s = (a ++ String "@"%char b)%string.

(** No item of [l] has the id [itemId]. *)
Definition idAbsent (itemId : string) (l : list IOrderItem) : Prop :=
  forall i, In i l -> id i <> itemId.

(** The guard of [addItem] lets the item through. *)
Definition accepted (item : IOrderItem) : Prop :=
  ((quantity item <=? 0)%float || (price item <? 0)%float) = false.

(** A call that hands over an item hands over numbers, not NaN. *)
Definition addsNumbers (c : Call) : Prop :=
  match c with
  | CallAddItem item => is_nan (quantity item) = false /\ is_nan (price item) = false
  | _ => True
  end.

(** The quantity of the item is neither NaN nor infinite. *)
Definition finiteQuantity (i : IOrderItem) : Prop :=
  is_finite (quantity i) = true.

Definition isReduceStock (ev : Event) : bool :=
  match ev with ReduceStock _ _ => true | _ => false end.

Definition isConfirmation (ev : Event) : bool :=
  match ev with SendOrderConfirmation _ _ => true | _ => false end.

Definition isPaymentFailed (ev : Event) : bool :=
  match ev with SendPaymentFailedNotification _ _ => true | _ => false end.

(** Zero of either sign, a positive finite value or [+Infinity]. *)
Definition SFnonneg (x : spec_float) : Prop :=
  match x with
  | S754_zero _ | S754_finite false _ _ | S754_infinity false => True
  | _ => False
  end.

(** What the [try] block of a checkout of [this] adds to the log: stock
    reductions, then the critical error if one of them rejected. *)
Definition tryBlockLog (this : OrderProcessor) (l : Log) : Prop :=
  exists done caught,
    l = reduceStockCalls done ++ caught
    /\ (caught = []
        \/ exists err, caught = [ConsoleError (criticalMessage this) (Some err)]).

(** Further sample data: a second lot of [prod2] and an order holding an
    item whose quantity is NaN. *)
Definition moreProd2 : IOrderItem := mkItem "prod2" "Test Item prod2" 80 3.
Definition nanOrder : OrderProcessor := setItems [nanItem] sampleOrder.

(** ** Comparisons of numbers with zero *)

Lemma Prim2SF_zero : Prim2SF 0%float = S754_zero false.
Proof. reflexivity. Qed.

Lemma ltb_zero_not_leb (x : number) :
  (0 <? x)%float = true -> (x <=? 0)%float = false.
Proof.
  rewrite ltb_spec, leb_spec, Prim2SF_zero.
  destruct (Prim2SF x) as [s | s | | s m e]; cbn; try destruct s; congruence.
Qed.

Lemma eqb_zero_leb (x : number) :
  (x =? 0)%float = true -> (x <=? 0)%float = true.
Proof.
  rewrite eqb_spec, leb_spec, Prim2SF_zero.
  destruct (Prim2SF x) as [s | s | | s m e]; cbn; try destruct s; congruence.
Qed.

Lemma calculateTotal_empty (this : OrderProcessor) :
  items this = [] -> calculateTotal this = 0%float.
Proof.
  intros H. unfold calculateTotal. rewrite H. cbn [fold_left].
  destruct (discountApplied this); reflexivity.
Qed.

(** ** Adding two positive numbers

    The sum of two positive binary64 numbers is positive (it may be
    [Infinity]); this is read off the specification of the addition. *)

Section PositiveSum.

Local Open Scope Z_scope.

Lemma shr_1_div2 (r : shr_record) :
  0 <= shr_m r -> shr_m (shr_1 r) = shr_m r / 2.
Proof.
  destruct r as [m rb sb]; cbn [shr_m]. intros H. unfold shr_1.
  destruct m as [| p | p]; [reflexivity | | lia].
  destruct p as [p | p |]; cbn [shr_m].
  - apply Z.div_unique with (r := 1); lia.
  - apply Z.div_unique with (r := 0); lia.
  - reflexivity.
Qed.

Lemma iter_shr_1_div (n : positive) : forall r : shr_record,
  0 <= shr_m r -> shr_m (iter_pos shr_1 n r) = shr_m r / 2 ^ Zpos n.
Proof.
  assert (step : forall r, 0 <= shr_m r -> 0 <= shr_m r / 2)
    by (intros; apply Z.div_pos; lia).
  induction n as [n IH | n IH |]; intros r H; cbn [iter_pos].
  - assert (H1 : 0 <= shr_m (shr_1 r)) by (rewrite shr_1_div2; auto).
    assert (H2 : 0 <= shr_m (iter_pos shr_1 n (shr_1 r))).
    { rewrite IH by assumption. apply Z.div_pos; [assumption | apply Z.pow_pos_nonneg; lia]. }
    rewrite IH, IH, shr_1_div2 by assumption.
    rewrite !Z.div_div by (try apply Z.pow_pos_nonneg; lia).
    f_equal. replace (Z.pos n~1) with (1 + Z.pos n + Z.pos n) by lia.
    rewrite !Z.pow_add_r by lia. lia.
  - assert (H2 : 0 <= shr_m (iter_pos shr_1 n r)).
    { rewrite IH by assumption. apply Z.div_pos; [assumption | apply Z.pow_pos_nonneg; lia]. }
    rewrite IH, IH by assumption.
    rewrite !Z.div_div by (try apply Z.pow_pos_nonneg; lia).
    f_equal. replace (Z.pos n~0) with (Z.pos n + Z.pos n) by lia.
    rewrite !Z.pow_add_r by lia. lia.
  - rewrite shr_1_div2 by assumption. reflexivity.
Qed.

Lemma digits2_pos_lower (p : positive) : 2 ^ (Zpos (digits2_pos p) - 1) <= Zpos p.
Proof.
  induction p as [p IH | p IH |]; cbn [digits2_pos].
  - rewrite Pos2Z.inj_succ.
    replace (Z.succ (Z.pos (digits2_pos p)) - 1) with (Z.succ (Z.pos (digits2_pos p) - 1)) by lia.
    rewrite Z.pow_succ_r by lia. lia.
  - rewrite Pos2Z.inj_succ.
    replace (Z.succ (Z.pos (digits2_pos p)) - 1) with (Z.succ (Z.pos (digits2_pos p) - 1)) by lia.
    rewrite Z.pow_succ_r by lia. lia.
  - reflexivity.
Qed.

(** Shifting a positive mantissa to its format exponent leaves it positive, when the
    exponent is not below the smallest one. *)
Lemma shr_fexp_pos (p : positive) (e : Z) (l : location) :
  -1074 <= e ->
  0 < shr_m (fst (shr_fexp prec emax (Zpos p) e l))
  /\ -1074 <= snd (shr_fexp prec emax (Zpos p) e l).
Proof.
  intros He. unfold shr_fexp, shr, fexp, SpecFloat.emin, Zdigits2, prec, emax.
  set (d := Zpos (digits2_pos p)).
  assert (rec0 : shr_m (shr_record_of_loc (Zpos p) l) = Zpos p)
    by (destruct l as [| []]; reflexivity).
  destruct (Z.max (d + e - 53) (3 - 1024 - 53) - e) as [| n | n] eqn:En;
    cbn [fst snd]; rewrite ?rec0; try (split; lia).
  rewrite iter_shr_1_div by (rewrite rec0; lia). rewrite rec0.
  assert (Hn : Zpos n <= d - 1) by lia.
  pose proof (digits2_pos_lower p) as Hd. fold d in Hd.
  split; [| lia].
  apply Z.div_str_pos. split; [apply Z.pow_pos_nonneg; lia |].
  eapply Z.le_trans; [| exact Hd]. apply Z.pow_le_mono_r; lia.
Qed.

Lemma round_nearest_even_pos (m : Z) (l : location) :
  0 < m -> 0 < round_nearest_even m l.
Proof.
  intros H. destruct l as [| []]; cbn; try lia. destruct (Z.even m); lia.
Qed.

Lemma binary_round_aux_pos (p : positive) (e : Z) (l : location) :
  -1074 <= e ->
  (exists m' e', binary_round_aux prec emax false (Zpos p) e l = S754_finite false m' e')
  \/ binary_round_aux prec emax false (Zpos p) e l = S754_infinity false.
Proof.
  intros He. unfold binary_round_aux.
  pose proof (shr_fexp_pos p e l He) as [H1 H2].
  destruct (shr_fexp prec emax (Zpos p) e l) as [mrs' e']. cbn [fst snd] in H1, H2.
  pose proof (round_nearest_even_pos _ (loc_of_shr_record mrs') H1) as H3.
  destruct (round_nearest_even (shr_m mrs') (loc_of_shr_record mrs')) as [| q | q];
    try lia.
  pose proof (shr_fexp_pos q e' loc_Exact H2) as [H4 _].
  destruct (shr_fexp prec emax (Zpos q) e' loc_Exact) as [mrs'' e'']. cbn [fst] in H4.
  destruct (shr_m mrs'') as [| m'' | m'']; try lia.
  destruct (e'' <=? emax - prec); [left; eauto | now right].
Qed.

Lemma valid_exponent s m e :
  valid_binary (S754_finite s m e) = true -> -1074 <= e.
Proof.
  cbn. unfold bounded, canonical_mantissa, fexp, SpecFloat.emin, prec, emax.
  intros H. apply andb_prop in H as [H _]. apply Z.eqb_eq in H. lia.
Qed.

Lemma shl_align_exponent m e e' : -1074 <= e -> -1074 <= e' -> -1074 <= snd (shl_align m e e').
Proof.
  intros. unfold shl_align. destruct (e' - e); cbn; lia.
Qed.

Lemma SFadd_positive (x y : spec_float) :
  valid_binary x = true -> valid_binary y = true ->
  SFpositive x -> SFpositive y -> SFpositive (SFadd prec emax x y).
Proof.
  unfold SFpositive.
  destruct x as [sx | sx | | sx mx ex], y as [sy | sy | | sy my ey];
    try destruct sx; try destruct sy; cbn [SFltb SFcompare];
    try discriminate; try reflexivity.
  intros Vx Vy _ _. apply valid_exponent in Vx, Vy.
  cbn [SFadd cond_Zopp]. 
  set (a := fst (shl_align mx ex (Z.min ex ey))).
  set (b := fst (shl_align my ey (Z.min ex ey))).
  change (Z.pos a + Z.pos b) with (Z.pos (a + b)). cbn [binary_normalize].
  unfold binary_round.
  pose proof (shl_align_exponent (a + b) (Z.min ex ey)
                (fexp prec emax (Z.pos (digits2_pos (a + b)) + Z.min ex ey))) as H.
  destruct (shl_align (a + b) (Z.min ex ey) _) as [mz ez]. cbn [snd] in H.
  destruct (binary_round_aux_pos mz ez loc_Exact) as [(m' & e' & ->) | ->];
    [| reflexivity | reflexivity].
  apply H; [lia |]. unfold fexp, SpecFloat.emin, prec, emax. lia.
Qed.

Lemma add_positive (x y : number) :
  (0 <? x)%float = true -> (0 <? y)%float = true -> (0 <? x + y)%float = true.
Proof.
  rewrite !ltb_spec, add_spec. change (Prim2SF 0) with (S754_zero false).
  apply SFadd_positive; apply Prim2SF_valid.
Qed.

End PositiveSum.

Lemma not_leb_zero_positive (x : number) :
  is_nan x = false -> (x <=? 0)%float = false -> (0 <? x)%float = true.
Proof.
  unfold is_nan. rewrite eqb_spec, ltb_spec, leb_spec, Prim2SF_zero.
  destruct (Prim2SF x) as [s | s | | s m e]; cbn; try destruct s; congruence.
Qed.

Lemma not_ltb_zero_nonnegative (x : number) :
  is_nan x = false -> (x <? 0)%float = false -> (0 <=? x)%float = true.
Proof.
  unfold is_nan. rewrite eqb_spec, ltb_spec, leb_spec, Prim2SF_zero.
  destruct (Prim2SF x) as [s | s | | s m e]; cbn; try destruct s; congruence.
Qed.

(** ** Adding items *)

Lemma addItem_rejects (item : IOrderItem) (this : OrderProcessor) (log : Log) :
  (quantity item <=? 0)%float = true \/ (price item <? 0)%float = true ->
  addItem item (this, log)
  = (this, log ++ [ConsoleWarn ("Попытка добавить товар " ++ name item
                     ++ " с некорректным количеством или ценой.")]).
Proof.
  intros H. unfold addItem.
  destruct H as [-> | ->]; [reflexivity | now rewrite orb_true_r].
Qed.

Lemma find_first (itemId : string) (pre : list IOrderItem) (existing : IOrderItem)
  (post : list IOrderItem) :
  (forall i, In i pre -> id i <> itemId) -> id existing = itemId ->
  find (fun i => String.eqb (id i) itemId) (pre ++ existing :: post) = Some existing.
Proof.
  intros Hpre He. induction pre as [| x pre IH]; cbn.
  - now rewrite (proj2 (String.eqb_eq _ _) He).
  - rewrite (proj2 (String.eqb_neq _ _) (Hpre x (or_introl eq_refl))).
    apply IH. intros i Hi. apply Hpre. now right.
Qed.

Lemma addQuantity_first (itemId : string) (qty : number) (pre : list IOrderItem)
  (existing : IOrderItem) (post : list IOrderItem) :
  (forall i, In i pre -> id i <> itemId) -> id existing = itemId ->
  addQuantity itemId qty (pre ++ existing :: post)
  = pre ++ mkItem (id existing) (name existing) (price existing)
                  (quantity existing + qty) :: post.
Proof.
  intros Hpre He. induction pre as [| x pre IH]; cbn.
  - now rewrite (proj2 (String.eqb_eq _ _) He).
  - rewrite (proj2 (String.eqb_neq _ _) (Hpre x (or_introl eq_refl))).
    f_equal. apply IH. intros i Hi. apply Hpre. now right.
Qed.

(** An accepted item whose id is in the order adds its quantity to the
    first entry with that id; the entry keeps its place, name and price, and
    the other entries are untouched. *)
Lemma addItem_merges (item : IOrderItem) (this : OrderProcessor) (log : Log)
  (pre : list IOrderItem) (existing : IOrderItem) (post : list IOrderItem) :
  ((quantity item <=? 0)%float || (price item <? 0)%float) = false ->
  items this = pre ++ existing :: post ->
  (forall i, In i pre -> id i <> id item) -> id existing = id item ->
  addItem item (this, log)
  = (setItems (pre ++ mkItem (id existing) (name existing) (price existing)
                             (quantity existing + quantity item) :: post) this,
     log).
Proof.
  intros Hok Hitems Hpre He. unfold addItem. rewrite Hok, Hitems.
  now rewrite find_first, addQuantity_first.
Qed.

(** An accepted item whose id is new goes to the end of the list. *)
Lemma addItem_appends (item : IOrderItem) (this : OrderProcessor) (log : Log) :
  ((quantity item <=? 0)%float || (price item <? 0)%float) = false ->
  (forall i, In i (items this) -> id i <> id item) ->
  addItem item (this, log) = (setItems (items this ++ [item]) this, log).
Proof.
  intros Hok Hnew. unfold addItem. rewrite Hok.
  destruct (find _ (items this)) as [x |] eqn:F; [| reflexivity].
  apply find_some in F as [Hin Hx]. apply String.eqb_eq in Hx.
  now destruct (Hnew x Hin).
Qed.

Lemma addQuantity_ids (itemId : string) (qty : number) (l : list IOrderItem) :
  map id (addQuantity itemId qty l) = map id l.
Proof.
  induction l as [| i l IH]; cbn; [reflexivity |].
  destruct (String.eqb (id i) itemId); cbn; [reflexivity | now rewrite IH].
Qed.

(** [addItem] keeps the ids of the order distinct. *)
Lemma addItem_unique_ids (item : IOrderItem) (this : OrderProcessor) (log : Log) :
  NoDup (map id (items this)) ->
  NoDup (map id (items (fst (addItem item (this, log))))).
Proof.
  intros H. unfold addItem.
  destruct ((quantity item <=? 0)%float || (price item <? 0)%float);
    [assumption |].
  destruct (find _ (items this)) as [x |] eqn:F; cbn.
  - now rewrite addQuantity_ids.
  - rewrite map_app. apply NoDup_app; [assumption | repeat constructor; intros [] |].
    intros a Ha [<- | []]. apply in_map_iff in Ha as (i & Hi & Hin).
    pose proof (find_none _ _ F i Hin) as Hneq. cbn in Hneq.
    apply String.eqb_neq in Hneq. contradiction.
Qed.

Lemma addQuantity_ok (itemId : string) (qty : number) (l : list IOrderItem) :
  (0 <? qty)%float = true ->
  Forall storedItemOk l -> Forall storedItemOk (addQuantity itemId qty l).
Proof.
  intros Hq. induction 1 as [| i l [Hi1 Hi2] Hl IH]; cbn; [constructor |].
  destruct (String.eqb (id i) itemId); constructor; try assumption.
  - split; cbn; [now apply add_positive | assumption].
  - now split.
Qed.

(** As long as the quantity and the price of the item are numbers, [addItem]
    keeps every stored quantity positive and every stored price
    non-negative. *)
Lemma addItem_keeps_items_ok (item : IOrderItem) (this : OrderProcessor) (log : Log) :
  is_nan (quantity item) = false -> is_nan (price item) = false ->
  Forall storedItemOk (items this) ->
  Forall storedItemOk (items (fst (addItem item (this, log)))).
Proof.
  intros Nq Np H. unfold addItem.
  destruct (quantity item <=? 0)%float eqn:Hq; [assumption |].
  destruct (price item <? 0)%float eqn:Hp; [assumption |]. cbn [orb].
  apply not_leb_zero_positive in Hq; [| assumption].
  apply not_ltb_zero_nonnegative in Hp; [| assumption].
  destruct (find _ (items this)); cbn.
  - now apply addQuantity_ok.
  - apply Forall_app. split; [assumption | repeat constructor; assumption].
Qed.

(** ** Rounding to two decimals *)

Lemma nearest_scaled (a D k : Z) :
  (0 < D)%Z ->
  let n := ((2 * a + D) / (2 * D))%Z in
  (Z.abs (n * D - a) <= Z.abs (k * D - a))%Z
  /\ (Z.abs (k * D - a) = Z.abs (n * D - a) -> k <= n)%Z.
Proof.
  intros HD n.
  assert (H1 : (2 * D * n <= 2 * a + D < 2 * D * n + 2 * D)%Z).
  { subst n. pose proof (Z.div_mod (2 * a + D) (2 * D) ltac:(lia)).
    pose proof (Z.mod_pos_bound (2 * a + D) (2 * D) ltac:(lia)). lia. }
  clearbody n.
  destruct (Z.lt_trichotomy k n) as [Hk | [Hk | Hk]].
  - split; [nia | lia].
  - subst k. split; lia.
  - split; nia.
Qed.

Lemma Qdist_hundredths (k a : Z) (d : positive) :
  Qabs ((k # 100) - (a # d))%Q = (Z.abs (k * Zpos d - a * 100) # (100 * d))%Q.
Proof.
  unfold Qminus, Qplus, Qopp, Qabs. cbn [Qnum Qden]. f_equal. f_equal. lia.
Qed.

(** The integer [toFixed(2)] prints is the one ECMAScript asks for. *)
Lemma nearestHundredths_nearest (m : positive) (e : Z) :
  isNearestHundredth (magnitude m e) (nearestHundredths m e).
Proof.
  unfold isNearestHundredth, magnitude, nearestHundredths. intros k.
  destruct (0 <=? e)%Z eqn:He.
  - unfold inject_Z. rewrite !Qdist_hundredths.
    unfold Qle, Qeq. cbn [Qnum Qden].
    replace (100 * Z.pos m * 2 ^ e * 1 - Z.pos m * 2 ^ e * 100)%Z with 0%Z by lia.
    split; [lia |]. intros H. lia.
  - apply Z.leb_gt in He.
    assert (HD : (0 < 2 ^ (- e))%Z) by (apply Z.pow_pos_nonneg; lia).
    replace (2 ^ (1 - e))%Z with (2 * 2 ^ (- e))%Z
      by (replace (1 - e)%Z with (Z.succ (- e)) by lia; rewrite Z.pow_succ_r; lia).
    rewrite !Qdist_hundredths. unfold Qle, Qeq. cbn [Qnum Qden].
    rewrite Z2Pos.id by assumption.
    pose proof (nearest_scaled (Z.pos m * 100) (2 ^ (- e)) k HD) as [H1 H2].
    replace (2 * (Z.pos m * 100))%Z with (200 * Z.pos m)%Z in H1, H2 by lia.
    split; [nia |]. intros H. apply H2. nia.
Qed.

Lemma nearestHundredths_nonneg (m : positive) (e : Z) :
  (0 <= nearestHundredths m e)%Z.
Proof.
  unfold nearestHundredths. destruct (0 <=? e)%Z eqn:He.
  - apply Z.leb_le in He. pose proof (Z.pow_nonneg 2 e ltac:(lia)). nia.
  - apply Z.leb_gt in He.
    pose proof (Z.pow_pos_nonneg 2 (- e) ltac:(lia) ltac:(lia)).
    pose proof (Z.pow_pos_nonneg 2 (1 - e) ltac:(lia) ltac:(lia)).
    apply Z.div_pos; lia.
Qed.

(** Halves go away from zero, on both sides. *)
Lemma roundHalfAwayFromZero_samples :
  roundHalfAwayFromZero (5 # 2) = 3%Z
  /\ roundHalfAwayFromZero (- 5 # 2) = (- 3)%Z
  /\ roundHalfAwayFromZero (7 # 3) = 2%Z
  /\ roundHalfAwayFromZero (- 1 # 3) = 0%Z
  /\ roundHalfAwayFromZero (100499 # 1000) = 100%Z
  /\ roundHalfAwayFromZero (1005 # 10) = 101%Z.
Proof. repeat split; reflexivity. Qed.

(** [ofHundredths] agrees with the reading of decimal literals, below and
    above 2^53 hundredths. *)
Lemma ofHundredths_literals :
  ofHundredths false 1012 = 10.12%float
  /\ ofHundredths false 7 = 0.07%float
  /\ ofHundredths true 1 = (-0.01)%float
  /\ ofHundredths false 17999 = 179.99%float
  /\ ofHundredths false 900719925474099301 = 9007199254740993.01%float
  /\ ofHundredths false 12345678901234567891 = 123456789012345678.91%float.
Proof. repeat split; reflexivity. Qed.

(** C6, as the code has it.  [calculateTotal] adds the products price times
    quantity from left to right in binary64 arithmetic, starting from 0, and
    multiplies the sum by 0.9 in binary64 arithmetic under a discount.  The
    exact value of that number is then rounded to the nearest hundredth, a
    half going away from zero, and the result is the number that two-decimal
    literal denotes; a zero gives 0, and NaN, the infinities and magnitudes
    of at least 10^21 are returned as they are.  Items priced 33.333 and
    66.666 at quantity 1 total 100.  No field of the processor changes. *)
Theorem calculateTotal_rounds (this : OrderProcessor) :
  let sum := fold_left (fun sum item => (sum + price item * quantity item)%float)
                       (items this) 0%float in
  let total := if discountApplied this then (sum * 0.9)%float else sum in
  match Prim2SF total with
  | S754_finite s m e =>
      if atLeast1e21 m e then calculateTotal this = total
      else exists n : Z,
          (0 <= n)%Z /\ isNearestHundredth (magnitude m e) n
          /\ calculateTotal this = ofHundredths s n
  | S754_zero _ => calculateTotal this = 0%float
  | S754_infinity _ | S754_nan => calculateTotal this = total
  end
  /\ calculateTotal
       (mkOrderProcessor [mkItem "item1" "Test Item item1" 33.333 1;
                          mkItem "item2" "Test Item item2" 66.666 1]%float
                         "test@example.com" false pending "order")
     = 100%float
  /\ (forall inv gw log, invoke inv gw CallCalculateTotal (this, log) = (this, log)).
Proof.
  intros sum total. split; [| split; [reflexivity | reflexivity]].
  change (calculateTotal this) with (parseFloat (toFixed2 total)).
  unfold toFixed2.
  destruct (Prim2SF total) as [s | s | | s m e] eqn:E.
  - reflexivity.
  - rewrite <- (SF2Prim_Prim2SF total), E. now destruct s.
  - now rewrite <- (SF2Prim_Prim2SF total), E.
  - destruct (atLeast1e21 m e); [reflexivity |].
    exists (nearestHundredths m e).
    split; [apply nearestHundredths_nonneg |].
    split; [apply nearestHundredths_nearest | reflexivity].
Qed.

(** ** The discount code *)

(** C8.  [applyDiscount] returns true exactly when the code is SALE10 and no
    discount is applied yet, and then it sets the flag; otherwise it returns
    false and changes nothing.  After one call with SALE10 the flag is set
    and the total is the sum times 0.9, rounded; a second call returns false,
    changes nothing and leaves the total as it is. *)
Theorem applyDiscount_once (discountCode : string) (this : OrderProcessor) :
  (fst (applyDiscount discountCode this) = true
   <-> discountCode = "SALE10" /\ discountApplied this = false)
  /\ (fst (applyDiscount discountCode this) = true ->
      snd (applyDiscount discountCode this) = setDiscountApplied true this)
  /\ (fst (applyDiscount discountCode this) = false ->
      snd (applyDiscount discountCode this) = this)
  /\ (let once := snd (applyDiscount "SALE10" this) in
      let twice := snd (applyDiscount "SALE10" once) in
      discountApplied once = true
      /\ calculateTotal once
         = parseFloat (toFixed2
             (fold_left (fun sum item => sum + price item * quantity item)
                        (items this) 0 * 0.9)%float)
      /\ fst (applyDiscount "SALE10" once) = false
      /\ twice = once
      /\ calculateTotal twice = calculateTotal once).
Proof.
  unfold applyDiscount.
  destruct (String.eqb_spec discountCode "SALE10") as [E | E];
    destruct (discountApplied this) eqn:D; cbn [andb negb fst snd];
    (split; [split; [try discriminate; now intros _ | intros [? ?]; congruence] |]);
    (split; [try discriminate; now intros _ |]);
    (split; [try discriminate; try now intros _ |]).
  all: try (intros _; reflexivity).
  all: unfold calculateTotal; cbn [discountApplied setDiscountApplied items];
    rewrite ?D; repeat split; try reflexivity.
  all: try (destruct this; cbn in *; subst; reflexivity).
Qed.

(** ** The two loops of [processOrder] *)

Section Loops.

Variable inventoryService : IInventoryService.

Lemma inStockAlong_cons log item l :
  inStockAlong inventoryService log (item :: l) ->
  checkStock inventoryService log (id item) (quantity item) = true
  /\ inStockAlong inventoryService (log ++ [CheckStock (id item) (quantity item)]) l.
Proof.
  intros H. split.
  - specialize (H [] item l eq_refl). cbn in H. now rewrite app_nil_r in H.
  - intros pre x post ->. specialize (H (item :: pre) x post eq_refl).
    cbn in H. now rewrite <- app_assoc.
Qed.

Lemma reducedAlong_cons log item l :
  reducedAlong inventoryService log (item :: l) ->
  reduceStock inventoryService log (id item) (quantity item) = None
  /\ reducedAlong inventoryService (log ++ [ReduceStock (id item) (quantity item)]) l.
Proof.
  intros H. split.
  - specialize (H [] item l eq_refl). cbn in H. now rewrite app_nil_r in H.
  - intros pre x post ->. specialize (H (item :: pre) x post eq_refl).
    cbn in H. now rewrite <- app_assoc.
Qed.

Lemma inStockAlong_nil log : inStockAlong inventoryService log [].
Proof. intros pre x post E. destruct pre; discriminate E. Qed.

Lemma inStockAlong_cons_intro log item l :
  checkStock inventoryService log (id item) (quantity item) = true ->
  inStockAlong inventoryService (log ++ [CheckStock (id item) (quantity item)]) l ->
  inStockAlong inventoryService log (item :: l).
Proof.
  intros H1 H2 pre x post E. destruct pre as [| y pre]; cbn in E.
  - injection E as <- _. cbn. now rewrite app_nil_r.
  - injection E as <- E. specialize (H2 pre x post E).
    rewrite <- app_assoc in H2. exact H2.
Qed.

(** Either every stock check passes, or there is a first item whose check
    resolves false. *)
Lemma inStockAlong_or_first_failure l : forall log,
  inStockAlong inventoryService log l
  \/ exists pre item post,
       l = pre ++ item :: post
       /\ inStockAlong inventoryService log pre
       /\ checkStock inventoryService (log ++ checkStockCalls pre)
                     (id item) (quantity item) = false.
Proof.
  induction l as [| a l IH]; intros log.
  - left. apply inStockAlong_nil.
  - destruct (checkStock inventoryService log (id a) (quantity a)) eqn:C.
    + destruct (IH (log ++ [CheckStock (id a) (quantity a)]))
        as [H | (pre & item & post & -> & Hpre & Hitem)].
      * left. now apply inStockAlong_cons_intro.
      * right. exists (a :: pre), item, post. split; [reflexivity |].
        split; [now apply inStockAlong_cons_intro |].
        rewrite <- app_assoc in Hitem. exact Hitem.
    + right. exists [], a, l. split; [reflexivity |].
      split; [apply inStockAlong_nil |]. cbn. now rewrite app_nil_r.
Qed.

(** When every check passes the loop runs to its end and has asked once per
    item, in order. *)
Lemma stockCheckLoop_pass l : forall this log,
  inStockAlong inventoryService log l ->
  stockCheckLoop inventoryService l (this, log)
  = (None, (this, log ++ checkStockCalls l)).
Proof.
  induction l as [| item l IH]; intros this log H; cbn.
  - now rewrite app_nil_r.
  - apply inStockAlong_cons in H as [H1 H2]. rewrite H1. cbn.
    rewrite IH by assumption. now rewrite <- app_assoc.
Qed.

(** The loop stops at the first item that is out of stock. *)
Lemma stockCheckLoop_fail pre item post : forall this log,
  inStockAlong inventoryService log pre ->
  checkStock inventoryService (log ++ checkStockCalls pre)
             (id item) (quantity item) = false ->
  stockCheckLoop inventoryService (pre ++ item :: post) (this, log)
  = (Some false,
     (setPaymentStatus failed this,
      log ++ checkStockCalls (pre ++ [item])
          ++ [ConsoleError (outOfStockMessage item) None;
              SendPaymentFailedNotification (customerEmail this)
                ("Товар " ++ name item ++ " отсутствует")])).
Proof.
  induction pre as [| x pre IH]; intros this log Hpre Hitem; cbn.
  - cbn in Hitem. rewrite app_nil_r in Hitem. rewrite Hitem. cbn.
    now rewrite <- !app_assoc.
  - apply inStockAlong_cons in Hpre as [H1 H2]. rewrite H1. cbn.
    rewrite IH; [now rewrite <- !app_assoc | assumption |].
    cbn in Hitem. now rewrite <- app_assoc.
Qed.

Lemma reduceStockLoop_pass l : forall log,
  reducedAlong inventoryService log l ->
  reduceStockLoop inventoryService l log = (None, log ++ reduceStockCalls l).
Proof.
  induction l as [| item l IH]; intros log H; cbn.
  - now rewrite app_nil_r.
  - apply reducedAlong_cons in H as [H1 H2]. rewrite H1.
    rewrite IH by assumption. now rewrite <- app_assoc.
Qed.

(** The loop stops at the first reduction that rejects. *)
Lemma reduceStockLoop_fail l pre item post err : forall log,
  l = pre ++ item :: post ->
  reducedAlong inventoryService log pre ->
  reduceStock inventoryService (log ++ reduceStockCalls pre)
              (id item) (quantity item) = Some err ->
  reduceStockLoop inventoryService l log
  = (Some err, log ++ reduceStockCalls (pre ++ [item])).
Proof.
  intros log ->. revert log.
  induction pre as [| x pre IH]; intros log Hpre Hitem; cbn.
  - cbn in Hitem. rewrite app_nil_r in Hitem. now rewrite Hitem.
  - apply reducedAlong_cons in Hpre as [H1 H2]. rewrite H1.
    rewrite IH; [now rewrite <- !app_assoc | assumption |].
    cbn in Hitem. now rewrite <- app_assoc.
Qed.

(** Whatever the services answer, the [try] block only reduces stock. *)
Lemma reduceStockLoop_log l : forall log,
  exists l', snd (reduceStockLoop inventoryService l log)
             = log ++ reduceStockCalls l'.
Proof.
  induction l as [| item l IH]; intros log; cbn.
  - exists []. now rewrite app_nil_r.
  - destruct (reduceStock inventoryService log (id item) (quantity item)).
    + now exists [item].
    + destruct (IH (log ++ [ReduceStock (id item) (quantity item)])) as [l' E].
      exists (item :: l'). rewrite E. now rewrite <- app_assoc.
Qed.

Lemma checkStockCalls_no_charge l : existsb isCharge (checkStockCalls l) = false.
Proof. induction l; [reflexivity | assumption]. Qed.

Lemma reduceStockCalls_no_charge l : existsb isCharge (reduceStockCalls l) = false.
Proof. induction l; [reflexivity | assumption]. Qed.

Lemma sameOrder_refl this : sameOrder this this.
Proof. now repeat split. Qed.

Lemma sameOrder_setPaymentStatus s this : sameOrder this (setPaymentStatus s this).
Proof. now repeat split. Qed.

(** The first loop leaves every field but the payment status alone, and the
    status it may set is [failed]. *)
Lemma stockCheckLoop_frame l : forall this log,
  let this' := fst (snd (stockCheckLoop inventoryService l (this, log))) in
  sameOrder this this'
  /\ (paymentStatus this' = paymentStatus this \/ paymentStatus this' = failed).
Proof.
  induction l as [| item l IH]; intros this log; cbn.
  - split; [apply sameOrder_refl | now left].
  - destruct (checkStock inventoryService log (id item) (quantity item)); cbn.
    + apply IH.
    + split; [apply sameOrder_setPaymentStatus | now right].
Qed.

End Loops.

(** ** Checkout: what [processOrder] does in each case *)

Section CheckoutProperties.

Variable inventoryService : IInventoryService.
Variable paymentGateway : IPaymentGateway.

Local Abbreviation checkout := (processOrder inventoryService paymentGateway).
Local Abbreviation inStock := (inStockAlong inventoryService).
Local Abbreviation reduced := (reducedAlong inventoryService).

Lemma nonempty_length (l : list IOrderItem) :
  l <> [] -> (List.length l =? 0)%nat = false /\ (0 <? List.length l)%nat = true.
Proof. destruct l; [congruence | now split]. Qed.

Lemma processOrder_nil (this : OrderProcessor) (log : Log) :
  items this = [] ->
  checkout (this, log)
  = (false, (this, log ++ [ConsoleError "Заказ пуст. Невозможно обработать." None])).
Proof.
  intros H. unfold processOrder. now rewrite H.
Qed.

(** C9.  On an empty order [processOrder] returns false at once: the only
    thing it does is one [console.error]; no service is called and no
    field changes. *)
Theorem processOrder_empty (this : OrderProcessor) (log : Log) :
  items this = [] ->
  checkout (this, log)
  = (false, (this, log ++ [ConsoleError "Заказ пуст. Невозможно обработать." None])).
Proof.
  intros Hempty. unfold processOrder.
  rewrite Hempty. cbn [List.length Nat.eqb]. reflexivity.
Qed.

(** C1.  When [item] is the first item whose stock check resolves false,
    [processOrder] returns false and the payment status it leaves is
    [failed], whatever it was before; it has checked
    the items before [item] and [item] itself, in order, and nothing after
    it; it has reported the error and sent one payment-failure notification
    that names [item]; it has charged nothing, reduced no stock and sent no
    confirmation. *)
Theorem processOrder_out_of_stock
  (this : OrderProcessor) (log : Log) (pre : list IOrderItem)
  (item : IOrderItem) (post : list IOrderItem) :
  items this = pre ++ item :: post ->
  inStock log pre ->
  checkStock inventoryService (log ++ checkStockCalls pre)
             (id item) (quantity item) = false ->
  checkout (this, log)
  = (false,
     (setPaymentStatus failed this,
      log ++ checkStockCalls (pre ++ [item])
          ++ [ConsoleError (outOfStockMessage item) None;
              SendPaymentFailedNotification (customerEmail this)
                ("Товар " ++ name item ++ " отсутствует")]))
  /\ paymentStatus (fst (snd (checkout (this, log)))) = failed.
Proof.
  intros Hitems Hpre Hitem.
  assert (E : checkout (this, log)
              = (false,
                 (setPaymentStatus failed this,
                  log ++ checkStockCalls (pre ++ [item])
                      ++ [ConsoleError (outOfStockMessage item) None;
                          SendPaymentFailedNotification (customerEmail this)
                            ("Товар " ++ name item ++ " отсутствует")]))).
  { unfold processOrder. rewrite Hitems.
    destruct (nonempty_length (pre ++ item :: post)) as [-> _].
    { now destruct pre. }
    now rewrite stockCheckLoop_fail. }
  split; [exact E |]. rewrite E. reflexivity.
Qed.

Lemma positive_total_nonempty (this : OrderProcessor) :
  (0 <? calculateTotal this)%float = true -> items this <> [].
Proof.
  intros H E. rewrite (calculateTotal_empty this E) in H. discriminate H.
Qed.

(** C2.  With every item in stock and a positive total, [processOrder]
    charges the total once.  If the charge is declined it returns false and
    leaves the status [failed], having reported the error and sent one
    payment-failure notification that carries the order id, and it reduces no
    stock and sends no confirmation.  If the charge succeeds the status is
    [paid]. *)
Theorem processOrder_charge (this : OrderProcessor) (log : Log) :
  inStock log (items this) ->
  (0 <? calculateTotal this)%float = true ->
  (charge paymentGateway (log ++ checkStockCalls (items this))
          (calculateTotal this) (customerEmail this) (orderId this) = false ->
   checkout (this, log)
   = (false,
      (setPaymentStatus failed this,
       log ++ checkStockCalls (items this)
           ++ [Charge (calculateTotal this) (customerEmail this) (orderId this);
               ConsoleError (paymentFailedMessage this) None;
               SendPaymentFailedNotification (customerEmail this) (orderId this)]))
   /\ paymentStatus (fst (snd (checkout (this, log)))) = failed) /\
  (charge paymentGateway (log ++ checkStockCalls (items this))
          (calculateTotal this) (customerEmail this) (orderId this) = true ->
   fst (checkout (this, log)) = true /\
   paymentStatus (fst (snd (checkout (this, log)))) = paid).
Proof.
  intros Hstock Hpos.
  destruct (nonempty_length (items this) (positive_total_nonempty this Hpos))
    as [Hlen _].
  unfold processOrder. rewrite Hlen, (stockCheckLoop_pass _ _ _ _ Hstock).
  cbv beta iota zeta.
  rewrite (ltb_zero_not_leb _ Hpos), Hpos. cbn [andb].
  split; intros ->; cbn [negb].
  - split; [rewrite <- !app_assoc; reflexivity | reflexivity].
  - split; reflexivity.
Qed.

(** C3.  Once the payment status has become [paid], if the reduction of
    [item] is the first that rejects, with the error [err], then
    [processOrder] has called [reduceStock] for the items before [item] and
    for [item], in order, and for nothing after it; it has logged the
    critical error together with [err], has still sent the confirmation, and
    returns true with the status [paid]. *)
Theorem processOrder_reduce_fails
  (this : OrderProcessor) (log payLog : Log) (pre : list IOrderItem)
  (item : IOrderItem) (post : list IOrderItem) (err : JsError) :
  items this = pre ++ item :: post ->
  inStock log (items this) ->
  becomesPaid paymentGateway this (log ++ checkStockCalls (items this)) payLog ->
  reduced ((log ++ checkStockCalls (items this)) ++ payLog) pre ->
  reduceStock inventoryService
    (((log ++ checkStockCalls (items this)) ++ payLog) ++ reduceStockCalls pre)
    (id item) (quantity item) = Some err ->
  checkout (this, log)
  = (true,
     (setPaymentStatus paid this,
      (((log ++ checkStockCalls (items this)) ++ payLog)
         ++ reduceStockCalls (pre ++ [item]))
         ++ [ConsoleError (criticalMessage this) (Some err);
             confirmation this paid])).
Proof.
  intros Hitems Hstock Hpaid Hpre Hitem.
  assert (Hne : items this <> []) by (rewrite Hitems; now destruct pre).
  destruct (nonempty_length _ Hne) as [Hlen Hlen'].
  unfold processOrder. rewrite Hlen, (stockCheckLoop_pass _ _ _ _ Hstock).
  cbv beta iota zeta. rewrite Hlen'.
  destruct Hpaid as [Hle | Hpos Hcharge | Hle Hlt Hstatus].
  - rewrite Hle. cbn [andb]. cbv beta iota zeta.
    cbn [paymentStatus setPaymentStatus items].
    unfold paymentSkippedMessage in Hpre, Hitem |- *.
    rewrite (reduceStockLoop_fail _ _ _ _ _ _ _ Hitems Hpre Hitem).
    cbv beta iota zeta. rewrite <- (app_assoc _ [_] [_]). reflexivity.
  - rewrite (ltb_zero_not_leb _ Hpos), Hpos, Hcharge. cbn [andb negb].
    cbv beta iota zeta. cbn [paymentStatus setPaymentStatus items].
    rewrite (reduceStockLoop_fail _ _ _ _ _ _ _ Hitems Hpre Hitem).
    cbv beta iota zeta. rewrite <- (app_assoc _ [_] [_]). reflexivity.
  - rewrite Hle, Hlt. cbn [andb]. cbv beta iota zeta. rewrite Hstatus.
    rewrite app_nil_r in Hpre, Hitem.
    rewrite (reduceStockLoop_fail _ _ _ _ _ _ _ Hitems Hpre Hitem).
    cbv beta iota zeta. rewrite <- (app_assoc _ [_] [_]), app_nil_r, <- Hstatus.
    destruct this; reflexivity.
Qed.

(** C5.  On a non-empty order whose items are all in stock and whose total is
    exactly 0, [processOrder] never charges: it warns that payment is
    skipped, sets the status to [paid], reduces stock (stopping at a reduction
    that rejects, which it reports), sends a confirmation whose total amount
    is 0 and returns true. *)
Theorem processOrder_zero_total (this : OrderProcessor) (log : Log) :
  items this <> [] ->
  inStock log (items this) ->
  (calculateTotal this =? 0)%float = true ->
  exists (reducedItems : list IOrderItem) (caught new : Log),
    checkout (this, log) = (true, (setPaymentStatus paid this, log ++ new))
    /\ new = checkStockCalls (items this)
             ++ [ConsoleWarn paymentSkippedMessage]
             ++ reduceStockCalls reducedItems
             ++ caught
             ++ [SendOrderConfirmation (customerEmail this)
                   (mkOrderDetails (orderId this) (items this)
                                   (calculateTotal this) paid)]
    /\ (caught = []
        \/ exists err, caught = [ConsoleError (criticalMessage this) (Some err)])
    /\ existsb isCharge new = false.
Proof.
  intros Hne Hstock Hzero.
  destruct (nonempty_length _ Hne) as [Hlen Hlen'].
  unfold processOrder. rewrite Hlen, (stockCheckLoop_pass _ _ _ _ Hstock).
  cbv beta iota zeta. rewrite (eqb_zero_leb _ Hzero), Hlen'. cbn [andb].
  cbv beta iota zeta. cbn [paymentStatus setPaymentStatus items].
  set (log1 := (log ++ checkStockCalls (items this)) ++ [ConsoleWarn _]).
  destruct (reduceStockLoop_log inventoryService (items this) log1) as [l' E].
  destruct (reduceStockLoop inventoryService (items this) log1) as [[err |] log2];
    cbn [snd] in E; subst log2 log1;
    [ exists l', [ConsoleError (criticalMessage this) (Some err)]
    | exists l', [] ];
    eexists; (split; [| split; [reflexivity | split]]).
  - rewrite <- !app_assoc. reflexivity.
  - right. now exists err.
  - rewrite !existsb_app, checkStockCalls_no_charge, reduceStockCalls_no_charge.
    reflexivity.
  - rewrite <- !app_assoc. reflexivity.
  - now left.
  - rewrite !existsb_app, checkStockCalls_no_charge, reduceStockCalls_no_charge.
    reflexivity.
Qed.

(** Whatever happens, [processOrder] touches no field but the payment
    status, and the status it leaves is the one it found, [paid] or
    [failed]. *)
Lemma processOrder_frame (this : OrderProcessor) (log : Log) :
  let this' := fst (snd (checkout (this, log))) in
  sameOrder this this'
  /\ (paymentStatus this' = paymentStatus this
      \/ paymentStatus this' = paid \/ paymentStatus this' = failed).
Proof.
  unfold processOrder.
  destruct (List.length (items this) =? 0)%nat.
  { split; [apply sameOrder_refl | now left]. }
  pose proof (stockCheckLoop_frame inventoryService (items this) this log) as F.
  destruct (stockCheckLoop inventoryService (items this) (this, log))
    as [[r |] [this1 log1]]; cbn [fst snd] in F |- *.
  { tauto. }
  destruct F as [S1 F]. cbv beta iota zeta.
  destruct ((calculateTotal this1 <=? 0)%float && (0 <? List.length (items this1))%nat).
  { cbn. unfold sameOrder in *. tauto. }
  destruct (0 <? calculateTotal this1)%float.
  - destruct (charge paymentGateway log1 _ _ _); cbn; unfold sameOrder in *; tauto.
  - cbn. unfold sameOrder in *. tauto.
Qed.

(** C10.  When [processOrder] returns false, the items, the discount flag,
    the customer's email and the order id are what they were before the
    call; on an empty order the payment status is unchanged too. *)
Theorem processOrder_false_frame (this : OrderProcessor) (log : Log) :
  fst (checkout (this, log)) = false ->
  let this' := fst (snd (checkout (this, log))) in
  items this' = items this
  /\ discountApplied this' = discountApplied this
  /\ customerEmail this' = customerEmail this
  /\ orderId this' = orderId this
  /\ (items this = [] -> paymentStatus this' = paymentStatus this).
Proof.
  intros _ this'.
  destruct (processOrder_frame this log) as [(H1 & H2 & H3 & H4) _].
  fold this' in H1, H2, H3, H4. repeat split; try congruence.
  intros E. subst this'. now rewrite (processOrder_nil this log E).
Qed.

(** ** The payment status over a sequence of calls *)

Lemma invoke_other_keeps_status (c : Call) (w : OrderProcessor * Log) :
  c <> CallProcessOrder ->
  paymentStatus (fst (invoke inventoryService paymentGateway c w))
  = paymentStatus (fst w).
Proof.
  intros Hc. destruct w as [this log], c; cbn; try reflexivity; try congruence.
  - destruct ((quantity item <=? 0)%float || (price item <? 0)%float);
      [reflexivity |].
    now destruct (find _ (items this)).
  - now destruct (spliceFirst itemId (items this)).
  - unfold applyDiscount.
    now destruct (String.eqb discountCode "SALE10" && negb (discountApplied this)).
Qed.

Lemma invoke_never_pending (c : Call) (w : OrderProcessor * Log) :
  paymentStatus (fst w) <> pending ->
  paymentStatus (fst (invoke inventoryService paymentGateway c w)) <> pending.
Proof.
  intros H. destruct c;
    try (rewrite invoke_other_keeps_status; [assumption | discriminate]).
  destruct w as [this log]. cbn [invoke].
  destruct (processOrder_frame this log) as [_ [E | [E | E]]];
    rewrite E; [assumption | discriminate | discriminate].
Qed.

(** C4, as the code has it.  Only [processOrder] writes the payment status:
    every other public method leaves it as it is.  A [processOrder] leaves
    the status it found or sets [paid] or [failed]; it never sets [pending],
    so once the status has left [pending] no sequence of calls brings it
    back.  [paid] and [failed] are not final: a processor built by the
    constructor and public calls can be [failed] and become [paid] by one
    more [processOrder], and another can be [paid] and become [failed]. *)
Theorem paymentStatus_transitions :
  (forall c w, c <> CallProcessOrder ->
     paymentStatus (fst (invoke inventoryService paymentGateway c w))
     = paymentStatus (fst w))
  /\ (forall w,
        let s' := paymentStatus
                    (fst (invoke inventoryService paymentGateway CallProcessOrder w)) in
        s' = paymentStatus (fst w) \/ s' = paid \/ s' = failed)
  /\ (forall cs w,
        paymentStatus (fst w) <> pending ->
        paymentStatus (fst (invokeAll inventoryService paymentGateway cs w))
        <> pending)
  /\ (exists inv gw email uuid this cs,
        construct email uuid = inr this
        /\ paymentStatus (fst (invokeAll inv gw cs (this, []))) = failed
        /\ paymentStatus
             (fst (invoke inv gw CallProcessOrder (invokeAll inv gw cs (this, []))))
           = paid)
  /\ (exists inv gw email uuid this cs,
        construct email uuid = inr this
        /\ paymentStatus (fst (invokeAll inv gw cs (this, []))) = paid
        /\ paymentStatus
             (fst (invoke inv gw CallProcessOrder (invokeAll inv gw cs (this, []))))
           = failed).
Proof.
  split; [exact invoke_other_keeps_status | split; [| split; [| split]]].
  - intros [this log]. cbn [invoke]. apply processOrder_frame.
  - intros cs. unfold invokeAll.
    induction cs as [| c cs IH]; intros w H; cbn [fold_left].
    + assumption.
    + apply IH. now apply invoke_never_pending.
  - exists stocked, declinesFirst, "test@example.com", "order-1", sampleOrder,
      [CallAddItem prod1; CallProcessOrder].
    repeat split; reflexivity.
  - exists stocked, acceptsFirst, "test@example.com", "order-1", sampleOrder,
      [CallAddItem prod1; CallProcessOrder].
    repeat split; reflexivity.
Qed.

End CheckoutProperties.

(** ** The checkout theorems on the sample data *)

Lemma processOrder_empty_witness :
  items sampleOrder = []
  /\ processOrder stocked accepts (sampleOrder, [])
     = (false,
        (sampleOrder, [ConsoleError "Заказ пуст. Невозможно обработать." None])).
Proof.
  split; [reflexivity |].
  exact (processOrder_empty stocked accepts sampleOrder [] eq_refl).
Defined.

Lemma lacksProd2_has_prod1 : inStockAlong lacksProd2 [] [prod1].
Proof.
  intros pre x post E. destruct pre as [| y pre].
  - injection E as <- _. reflexivity.
  - destruct pre; discriminate E.
Defined.

Lemma processOrder_out_of_stock_witness :
  items twoItems = [prod1] ++ prod2 :: []
  /\ inStockAlong lacksProd2 [] [prod1]
  /\ checkStock lacksProd2 ([] ++ checkStockCalls [prod1]) "prod2" 1 = false
  /\ paymentStatus twoItems = pending
  /\ paymentStatus (fst (snd (processOrder lacksProd2 accepts (twoItems, []))))
     = failed
  /\ processOrder lacksProd2 accepts (twoItems, [])
     = (false,
        (mkOrderProcessor [prod1; prod2] "test@example.com" false failed "order-1",
         [CheckStock "prod1" 2; CheckStock "prod2" 1;
          ConsoleError
            "Товар Test Item prod2 (ID: prod2) отсутствует на складе в нужном количестве."
            None;
          SendPaymentFailedNotification "test@example.com"
            "Товар Test Item prod2 отсутствует"])).
Proof.
  split; [reflexivity |]. split; [exact lacksProd2_has_prod1 |].
  split; [reflexivity |]. split; [reflexivity |].
  pose proof (processOrder_out_of_stock lacksProd2 accepts twoItems [] [prod1]
                prod2 [] eq_refl lacksProd2_has_prod1 eq_refl) as [E S].
  split; [exact S | exact E].
Defined.

Lemma stocked_inStock (log : Log) (l : list IOrderItem) : inStockAlong stocked log l.
Proof. intros pre x post _. reflexivity. Defined.

Lemma processOrder_charge_witness :
  inStockAlong stocked [] (items twoItems)
  /\ (0 <? calculateTotal twoItems)%float = true
  /\ processOrder stocked declines (twoItems, [])
     = (false,
        (setPaymentStatus failed twoItems,
         [CheckStock "prod1" 2; CheckStock "prod2" 1;
          Charge 175 "test@example.com" "order-1";
          ConsoleError "Оплата заказа order-1 не удалась." None;
          SendPaymentFailedNotification "test@example.com" "order-1"]))
  /\ paymentStatus (fst (snd (processOrder stocked declines (twoItems, [])))) = failed
  /\ paymentStatus (fst (snd (processOrder stocked accepts (twoItems, [])))) = paid.
Proof.
  split; [apply stocked_inStock |]. split; [reflexivity |]. split; [| split].
  - exact (proj1 (proj1 (processOrder_charge stocked declines twoItems []
                           (stocked_inStock _ _) eq_refl) eq_refl)).
  - exact (proj2 (proj1 (processOrder_charge stocked declines twoItems []
                           (stocked_inStock _ _) eq_refl) eq_refl)).
  - exact (proj2 (proj2 (processOrder_charge stocked accepts twoItems []
                           (stocked_inStock _ _) eq_refl) eq_refl)).
Defined.

Lemma brokenWarehouse_inStock (log : Log) (l : list IOrderItem) :
  inStockAlong brokenWarehouse log l.
Proof. intros pre x post _. reflexivity. Defined.

Lemma nothing_reduced (inv : IInventoryService) (log : Log) : reducedAlong inv log [].
Proof. intros pre x post E. destruct pre; discriminate E. Defined.

Lemma processOrder_reduce_fails_witness :
  items twoItems = [] ++ prod1 :: [prod2]
  /\ becomesPaid accepts twoItems ([] ++ checkStockCalls (items twoItems))
       [Charge 175 "test@example.com" "order-1"]
  /\ processOrder brokenWarehouse accepts (twoItems, [])
     = (true,
        (setPaymentStatus paid twoItems,
         [CheckStock "prod1" 2; CheckStock "prod2" 1;
          Charge 175 "test@example.com" "order-1";
          ReduceStock "prod1" 2;
          ConsoleError
            "Критическая ошибка: не удалось уменьшить остатки для заказа order-1 после оплаты."
            (Some dbError);
          SendOrderConfirmation "test@example.com"
            (mkOrderDetails "order-1" [prod1; prod2] 175 paid)])).
Proof.
  assert (P : becomesPaid accepts twoItems ([] ++ checkStockCalls (items twoItems))
                [Charge 175 "test@example.com" "order-1"])
    by exact (PaidByCharge accepts twoItems _ eq_refl eq_refl).
  split; [reflexivity |]. split; [exact P |].
  exact (processOrder_reduce_fails brokenWarehouse accepts twoItems [] _ [] prod1
           [prod2] dbError eq_refl (brokenWarehouse_inStock _ _) P
           (nothing_reduced _ _) eq_refl).
Defined.

Lemma processOrder_zero_total_witness :
  items freeOrder <> []
  /\ (calculateTotal freeOrder =? 0)%float = true
  /\ exists (reducedItems : list IOrderItem) (caught new : Log),
      processOrder stocked accepts (freeOrder, [])
      = (true, (setPaymentStatus paid freeOrder, [] ++ new))
      /\ new = checkStockCalls (items freeOrder)
               ++ [ConsoleWarn paymentSkippedMessage]
               ++ reduceStockCalls reducedItems
               ++ caught
               ++ [SendOrderConfirmation (customerEmail freeOrder)
                     (mkOrderDetails (orderId freeOrder) (items freeOrder)
                                     (calculateTotal freeOrder) paid)]
      /\ (caught = []
          \/ exists err, caught = [ConsoleError (criticalMessage freeOrder) (Some err)])
      /\ existsb isCharge new = false.
Proof.
  assert (N : items freeOrder <> []) by discriminate.
  split; [exact N |]. split; [reflexivity |].
  exact (processOrder_zero_total stocked accepts freeOrder [] N
           (stocked_inStock _ _) eq_refl).
Defined.

Lemma processOrder_false_frame_witness :
  fst (processOrder stocked declines (twoItems, [])) = false
  /\ items (fst (snd (processOrder stocked declines (twoItems, [])))) = [prod1; prod2]
  /\ customerEmail (fst (snd (processOrder stocked declines (twoItems, []))))
     = "test@example.com".
Proof.
  split; [reflexivity |].
  pose proof (processOrder_false_frame stocked declines twoItems [] eq_refl) as H.
  cbv zeta in H. destruct H as (H1 & _ & H3 & _).
  split; [exact H1 | exact H3].
Defined.

(** ** Where the code parts from the specification *)

(** C4, as stated, fails: a second [processOrder] on the same instance moves
    the status from [failed] to [paid] when the retried charge succeeds, and
    from [paid] to [failed] when the second charge is declined. *)
Lemma paymentStatus_not_terminal :
  paymentStatus (fst afterDeclined) = failed
  /\ paymentStatus (fst (invoke stocked declinesFirst CallProcessOrder afterDeclined))
     = paid
  /\ paymentStatus (fst afterAccepted) = paid
  /\ paymentStatus (fst (invoke stocked acceptsFirst CallProcessOrder afterAccepted))
     = failed.
Proof. repeat split; reflexivity. Qed.

(** C6, as stated, fails: for the prices 1 and 0.005 at quantity 1 the sum
    rounded half away from zero is 1.01, and [calculateTotal] returns 1,
    because the binary64 sum of 1 and 0.005 lies below 1.005. *)
Lemma calculateTotal_not_exact :
  calculateTotal halfCentOrder = 1%float
  /\ statedTotal halfCentOrder = 1.01%float
  /\ (calculateTotal halfCentOrder =? statedTotal halfCentOrder)%float = false.
Proof. repeat split; reflexivity. Qed.

(** C7 at an item whose quantity is NaN: the guard lets it through, no warning
    is printed, and the order stores an item whose quantity is not greater
    than 0. *)
Theorem addItem_stores_NaN_quantity :
  construct "test@example.com" "order-1" = inr sampleOrder
  /\ ((quantity nanItem <=? 0)%float || (price nanItem <? 0)%float) = false
  /\ addItem nanItem (sampleOrder, []) = (setItems [nanItem] sampleOrder, [])
  /\ Forall (fun i => (0 <? quantity i)%float = false)
            (items (fst (addItem nanItem (sampleOrder, [])))).
Proof.
  repeat split; try reflexivity. cbn. constructor; [reflexivity | constructor].
Qed.

(** * Further properties of the class *)

(** ** The constructor *)

Lemma includesAt_containsAt (s : string) : includesAt s = true <-> containsAt s.
Proof.
  unfold containsAt. split.
  - induction s as [| c rest IH]; cbn; [discriminate |].
    destruct (Ascii.eqb_spec c "@"%char) as [-> | _]; cbn.
    + intros _. now exists "", rest.
    + intros H. destruct (IH H) as (a & b & ->). now exists (String c a), b.
  - intros (a & b & ->). induction a as [| c a IH]; cbn.
    + reflexivity.
    + rewrite IH. apply orb_true_r.
Qed.

(** X1.  The constructor succeeds exactly on the emails that hold an [@];
    the new processor then has no items, no discount, the status [pending],
    the email given and the fresh id.  On every other email, the empty one
    included, it throws the invalid-email error. *)
Theorem construct_iff_at (email uuid : string) :
  (construct email uuid = inr (mkOrderProcessor [] email false pending uuid)
   <-> containsAt email)
  /\ (construct email uuid = inl "Некорректный email покупателя."
      <-> ~ containsAt email).
Proof.
  unfold construct. rewrite <- includesAt_containsAt.
  destruct (String.eqb_spec email "") as [-> | _]; cbn.
  - split; split; congruence.
  - destruct (includesAt email); cbn; split; split; congruence.
Qed.

(** ** Removing items *)

Lemma spliceFirst_absent (itemId : string) (l : list IOrderItem) :
  idAbsent itemId l -> spliceFirst itemId l = None.
Proof.
  induction l as [| i l IH]; intros H; cbn; [reflexivity |].
  rewrite (proj2 (String.eqb_neq _ _) (H i (or_introl eq_refl))).
  rewrite IH; [reflexivity |]. intros x Hx. apply H. now right.
Qed.

Lemma spliceFirst_first (itemId : string) (pre : list IOrderItem)
  (x : IOrderItem) (post : list IOrderItem) :
  idAbsent itemId pre -> id x = itemId ->
  spliceFirst itemId (pre ++ x :: post) = Some (pre ++ post).
Proof.
  intros Hpre Hx. induction pre as [| i pre IH]; cbn.
  - now rewrite (proj2 (String.eqb_eq _ _) Hx).
  - rewrite (proj2 (String.eqb_neq _ _) (Hpre i (or_introl eq_refl))).
    rewrite IH; [reflexivity |]. intros y Hy. apply Hpre. now right.
Qed.

Lemma spliceFirst_some (itemId : string) (l l' : list IOrderItem) :
  spliceFirst itemId l = Some l' ->
  exists pre x post,
    l = pre ++ x :: post /\ idAbsent itemId pre /\ id x = itemId
    /\ l' = pre ++ post.
Proof.
  revert l'. induction l as [| i l IH]; intros l'; cbn; [discriminate |].
  destruct (String.eqb_spec (id i) itemId) as [E | N].
  - intros [= <-]. exists [], i, l. repeat split; try assumption. intros ? [].
  - destruct (spliceFirst itemId l) as [r |]; [| discriminate].
    intros [= <-]. destruct (IH r eq_refl) as (pre & x & post & -> & Hp & Hx & ->).
    exists (i :: pre), x, post. repeat split; try assumption.
    intros y [<- | Hy]; [assumption | now apply Hp].
Qed.

(** X2.  [removeItem] on an id the order does not hold changes no field and
    prints one warning that names the id. *)
Theorem removeItem_absent (itemId : string) (this : OrderProcessor) (log : Log) :
  idAbsent itemId (items this) ->
  removeItem itemId (this, log)
  = (this, log ++ [ConsoleWarn ("Товар с ID " ++ itemId ++ " не найден в заказе.")]).
Proof.
  intros H. unfold removeItem. now rewrite spliceFirst_absent.
Qed.

(** X3.  [removeItem] takes out the first item that has the id, and only that
    one: the items before and after it keep their order, and nothing is
    printed. *)
Theorem removeItem_first (itemId : string) (this : OrderProcessor) (log : Log)
  (pre : list IOrderItem) (x : IOrderItem) (post : list IOrderItem) :
  items this = pre ++ x :: post ->
  idAbsent itemId pre -> id x = itemId ->
  removeItem itemId (this, log) = (setItems (pre ++ post) this, log).
Proof.
  intros Hitems Hpre Hx. unfold removeItem.
  now rewrite Hitems, spliceFirst_first.
Qed.

(** X4.  Adding an accepted item whose id is new and removing that id again
    gives back the processor and the log as they were. *)
Theorem addItem_removeItem (item : IOrderItem) (this : OrderProcessor) (log : Log) :
  accepted item -> idAbsent (id item) (items this) ->
  removeItem (id item) (addItem item (this, log)) = (this, log).
Proof.
  intros Hok Hnew. rewrite (addItem_appends item this log Hok Hnew).
  unfold removeItem. cbn [items setItems].
  rewrite (spliceFirst_first (id item) (items this) item [] Hnew eq_refl).
  rewrite app_nil_r. now destruct this.
Qed.

(** X5.  When the ids of the order are distinct, no item with the id is left
    after [removeItem]. *)
Theorem removeItem_id_gone (itemId : string) (this : OrderProcessor) (log : Log) :
  NoDup (map id (items this)) ->
  idAbsent itemId (items (fst (removeItem itemId (this, log)))).
Proof.
  intros Hnd. unfold removeItem.
  destruct (spliceFirst itemId (items this)) as [l' |] eqn:E; cbn [fst items setItems].
  - destruct (spliceFirst_some _ _ _ E) as (pre & x & post & Hl & _ & Hx & ->).
    rewrite Hl, map_app in Hnd. cbn [map] in Hnd.
    apply NoDup_remove_2 in Hnd. intros i Hi Hid. apply Hnd.
    rewrite <- map_app, Hx, <- Hid. now apply in_map.
  - intros i Hi Hid.
    assert (F : forall l, spliceFirst itemId l = None -> idAbsent itemId l).
    { clear. induction l as [| a l IH]; cbn; [intros _ ? [] |].
      destruct (String.eqb_spec (id a) itemId) as [| N]; [discriminate |].
      destruct (spliceFirst itemId l); [discriminate |].
      intros _ y [<- | Hy]; [assumption | now apply IH]. }
    exact (F _ E i Hi Hid).
Qed.

(** ** More on adding items *)

(** X6.  An accepted item whose id the order holds is merged into the first
    entry with that id: the entry keeps its place, name and price and its
    quantity grows by the item's; the list keeps its length and its ids, and
    nothing is printed. *)
Theorem addItem_existing_id (item : IOrderItem) (this : OrderProcessor) (log : Log)
  (pre : list IOrderItem) (existing : IOrderItem) (post : list IOrderItem) :
  accepted item ->
  items this = pre ++ existing :: post ->
  idAbsent (id item) pre -> id existing = id item ->
  let w' := addItem item (this, log) in
  w' = (setItems (pre ++ mkItem (id existing) (name existing) (price existing)
                                (quantity existing + quantity item) :: post) this,
        log)
  /\ List.length (items (fst w')) = List.length (items this)
  /\ map id (items (fst w')) = map id (items this).
Proof.
  intros Hok Hitems Hpre He w'. subst w'.
  rewrite (addItem_merges item this log pre existing post Hok Hitems Hpre He).
  cbn [fst items setItems]. rewrite Hitems.
  split; [reflexivity |]. split.
  - now rewrite !length_app.
  - now rewrite !map_app.
Qed.

(** X7.  An accepted item whose id is new becomes the last item of the
    order, the items before it are untouched, nothing is printed, and a
    search for its id now finds it. *)
Theorem addItem_new_id (item : IOrderItem) (this : OrderProcessor) (log : Log) :
  accepted item -> idAbsent (id item) (items this) ->
  let w' := addItem item (this, log) in
  w' = (setItems (items this ++ [item]) this, log)
  /\ find (fun i => String.eqb (id i) (id item)) (items (fst w')) = Some item.
Proof.
  intros Hok Hnew w'. subst w'.
  rewrite (addItem_appends item this log Hok Hnew). split; [reflexivity |].
  cbn [fst items setItems]. now apply find_first.
Qed.

(** ** What a sequence of calls keeps *)

Section CallSequences.

Variable inventoryService : IInventoryService.
Variable paymentGateway : IPaymentGateway.

Local Abbreviation call := (invoke inventoryService paymentGateway).
Local Abbreviation calls := (invokeAll inventoryService paymentGateway).

(** A property of the processor that every allowed call keeps is kept by
    every sequence of allowed calls. *)
Lemma invokeAll_keeps (P : OrderProcessor -> Prop) (allowed : Call -> Prop) :
  (forall c w, allowed c -> P (fst w) -> P (fst (call c w))) ->
  forall cs w, Forall allowed cs -> P (fst w) -> P (fst (calls cs w)).
Proof.
  intros step cs. unfold invokeAll.
  induction cs as [| c cs IH]; intros w Hcs Hw; cbn [fold_left].
  - assumption.
  - inversion Hcs as [| ? ? Hc Hcs']; subst. apply IH; [assumption |].
    now apply step.
Qed.

Lemma invoke_items (c : Call) (w : OrderProcessor * Log) :
  match c with
  | CallAddItem item => items (fst (call c w)) = items (fst (addItem item w))
  | CallRemoveItem itemId => items (fst (call c w)) = items (fst (removeItem itemId w))
  | _ => items (fst (call c w)) = items (fst w)
  end.
Proof.
  destruct w as [this log], c; cbn [invoke fst snd]; try reflexivity.
  - unfold applyDiscount.
    now destruct (String.eqb discountCode "SALE10" && negb (discountApplied this)).
  - destruct (processOrder_frame inventoryService paymentGateway this log)
      as [(H & _) _]. now symmetry.
Qed.

Lemma removeItem_unique_ids (itemId : string) (this : OrderProcessor) (log : Log) :
  NoDup (map id (items this)) ->
  NoDup (map id (items (fst (removeItem itemId (this, log))))).
Proof.
  intros H. unfold removeItem.
  destruct (spliceFirst itemId (items this)) as [l' |] eqn:E;
    cbn [fst items setItems]; [| assumption].
  destruct (spliceFirst_some _ _ _ E) as (pre & x & post & Hl & _ & _ & ->).
  rewrite Hl, map_app in H. cbn [map] in H.
  apply NoDup_remove_1 in H. now rewrite map_app.
Qed.

(** X8.  Whatever public methods are called, in whatever order and with
    whatever arguments, the ids of the order stay distinct; in particular
    they are distinct in every processor reached from a new one. *)
Theorem unique_ids_kept (cs : list Call) :
  (forall w, NoDup (map id (items (fst w))) ->
             NoDup (map id (items (fst (calls cs w)))))
  /\ (forall email uuid this,
        construct email uuid = inr this ->
        NoDup (map id (items (fst (calls cs (this, [])))))).
Proof.
  assert (K : forall w, NoDup (map id (items (fst w))) ->
                        NoDup (map id (items (fst (calls cs w))))).
  { intros w. apply (invokeAll_keeps (fun o => NoDup (map id (items o)))
                       (fun _ => True)).
    - intros c [this log] _ H. pose proof (invoke_items c (this, log)) as E.
      destruct c; rewrite E; try assumption.
      + now apply addItem_unique_ids.
      + now apply removeItem_unique_ids.
    - clear. induction cs; constructor; auto. }
  split; [exact K |].
  intros email uuid this E. apply K. unfold construct in E.
  destruct (String.eqb email "" || negb (includesAt email)); [discriminate |].
  injection E as <-. constructor.
Qed.

Lemma removeItem_keeps_items_ok (itemId : string) (this : OrderProcessor) (log : Log) :
  Forall storedItemOk (items this) ->
  Forall storedItemOk (items (fst (removeItem itemId (this, log)))).
Proof.
  intros H. unfold removeItem.
  destruct (spliceFirst itemId (items this)) as [l' |] eqn:E;
    cbn [fst items setItems]; [| assumption].
  destruct (spliceFirst_some _ _ _ E) as (pre & x & post & Hl & _ & _ & ->).
  rewrite Hl in H. apply Forall_app in H as [H1 H2].
  apply Forall_app. split; [assumption | now inversion H2].
Qed.

(** X9.  As long as no call hands over an item whose quantity or price is
    NaN, every stored item keeps a quantity greater than 0 and a price of at
    least 0, whatever public methods are called. *)
Theorem items_ok_kept (cs : list Call) (w : OrderProcessor * Log) :
  Forall addsNumbers cs ->
  Forall storedItemOk (items (fst w)) ->
  Forall storedItemOk (items (fst (calls cs w))).
Proof.
  apply (invokeAll_keeps (fun o => Forall storedItemOk (items o)) addsNumbers).
  intros c [this log] Hc H. pose proof (invoke_items c (this, log)) as E.
  destruct c; rewrite E; try assumption.
  - destruct Hc as [Nq Np]. now apply addItem_keeps_items_ok.
  - now apply removeItem_keeps_items_ok.
Qed.

Lemma invoke_identity (c : Call) (w : OrderProcessor * Log) :
  orderId (fst (call c w)) = orderId (fst w)
  /\ customerEmail (fst (call c w)) = customerEmail (fst w).
Proof.
  destruct w as [this log], c; cbn [invoke fst snd]; try (split; reflexivity).
  - unfold addItem.
    destruct ((quantity item <=? 0)%float || (price item <? 0)%float);
      [now split |].
    now destruct (find _ (items this)).
  - unfold removeItem. now destruct (spliceFirst itemId (items this)).
  - unfold applyDiscount.
    now destruct (String.eqb discountCode "SALE10" && negb (discountApplied this)).
  - destruct (processOrder_frame inventoryService paymentGateway this log)
      as [(_ & _ & H1 & H2) _]. now split.
Qed.

(** X10.  The order id and the customer's email never change, whatever public
    methods are called. *)
Theorem identity_kept (cs : list Call) (w : OrderProcessor * Log) :
  orderId (fst (calls cs w)) = orderId (fst w)
  /\ customerEmail (fst (calls cs w)) = customerEmail (fst w).
Proof.
  revert w. unfold invokeAll.
  induction cs as [| c cs IH]; intros w; cbn [fold_left]; [now split |].
  destruct (IH (call c w)) as [H1 H2], (invoke_identity c w) as [E1 E2].
  split; congruence.
Qed.

Lemma invoke_discount (c : Call) (w : OrderProcessor * Log) :
  discountApplied (fst (call c w)) = discountApplied (fst w)
  \/ (c = CallApplyDiscount "SALE10"
      /\ discountApplied (fst w) = false
      /\ discountApplied (fst (call c w)) = true).
Proof.
  destruct w as [this log], c; cbn [invoke fst snd]; try (now left).
  - left. unfold addItem.
    destruct ((quantity item <=? 0)%float || (price item <? 0)%float);
      [reflexivity |].
    now destruct (find _ (items this)).
  - left. unfold removeItem. now destruct (spliceFirst itemId (items this)).
  - unfold applyDiscount.
    destruct (String.eqb_spec discountCode "SALE10") as [-> | _];
      destruct (discountApplied this) eqn:D; cbn; rewrite ?D; auto.
  - left.
    destruct (processOrder_frame inventoryService paymentGateway this log)
      as [(_ & H & _) _]. now symmetry.
Qed.

(** X11.  The discount flag is raised only by [applyDiscount] with the code
    SALE10, and nothing lowers it: a flag that is set stays set through every
    sequence of calls, and a flag that was down and is up after a sequence of
    calls means that the sequence holds such a call. *)
Theorem discount_flag_history (cs : list Call) (w : OrderProcessor * Log) :
  (discountApplied (fst w) = true -> discountApplied (fst (calls cs w)) = true)
  /\ (discountApplied (fst w) = false ->
      discountApplied (fst (calls cs w)) = true ->
      In (CallApplyDiscount "SALE10") cs).
Proof.
  revert w. unfold invokeAll.
  induction cs as [| c cs IH]; intros w; cbn [fold_left].
  - split; [trivial | congruence].
  - destruct (IH (call c w)) as [IH1 IH2].
    destruct (invoke_discount c w) as [E | (-> & E0 & E1)].
    + rewrite E in IH1, IH2. split; [assumption |].
      intros H0 H1. right. now apply IH2.
    + split; [congruence |]. intros _ _. now left.
Qed.

End CallSequences.

(** ** More on checkout *)

Section CheckoutOutcomes.

Variable inventoryService : IInventoryService.
Variable paymentGateway : IPaymentGateway.

Local Abbreviation checkout := (processOrder inventoryService paymentGateway).
Local Abbreviation inStock := (inStockAlong inventoryService).
Local Abbreviation reduced := (reducedAlong inventoryService).

Lemma tryBlock_shape (this : OrderProcessor) (log : Log) :
  exists l,
    tryBlockLog this l
    /\ match reduceStockLoop inventoryService (items this) log with
       | (None, log') => log'
       | (Some error, log') =>
           log' ++ [ConsoleError (criticalMessage this) (Some error)]
       end = log ++ l.
Proof.
  destruct (reduceStockLoop_log inventoryService (items this) log) as [done E].
  destruct (reduceStockLoop inventoryService (items this) log) as [[err |] log'];
    cbn [snd] in E; subst log'.
  - exists (reduceStockCalls done ++ [ConsoleError (criticalMessage this) (Some err)]).
    split; [| now rewrite app_assoc].
    exists done, [ConsoleError (criticalMessage this) (Some err)].
    split; [reflexivity | right; now exists err].
  - exists (reduceStockCalls done ++ []). split; [| now rewrite app_nil_r].
    exists done, []. split; [reflexivity | now left].
Qed.

(** Every way a checkout can go, with what it returns, the state it leaves
    and what it adds to the log. *)
Lemma processOrder_cases (this : OrderProcessor) (log : Log) :
  (items this = []
   /\ checkout (this, log)
      = (false, (this, log ++ [ConsoleError "Заказ пуст. Невозможно обработать." None])))
  \/ (exists pre item post,
        items this = pre ++ item :: post
        /\ checkout (this, log)
           = (false,
              (setPaymentStatus failed this,
               log ++ checkStockCalls (pre ++ [item])
                   ++ [ConsoleError (outOfStockMessage item) None;
                       SendPaymentFailedNotification (customerEmail this)
                         ("Товар " ++ name item ++ " отсутствует")])))
  \/ (items this <> [] /\ inStock log (items this)
      /\ ((calculateTotal this <=? 0)%float = true
          /\ exists l, tryBlockLog this l
             /\ checkout (this, log)
                = (true,
                   (setPaymentStatus paid this,
                    log ++ checkStockCalls (items this)
                        ++ [ConsoleWarn paymentSkippedMessage]
                        ++ l ++ [confirmation this paid])))
      \/ (items this <> [] /\ inStock log (items this)
          /\ (0 <? calculateTotal this)%float = true
          /\ checkout (this, log)
             = (false,
                (setPaymentStatus failed this,
                 log ++ checkStockCalls (items this)
                     ++ [Charge (calculateTotal this) (customerEmail this)
                                (orderId this);
                         ConsoleError (paymentFailedMessage this) None;
                         SendPaymentFailedNotification (customerEmail this)
                                                       (orderId this)])))
      \/ (items this <> [] /\ inStock log (items this)
          /\ (0 <? calculateTotal this)%float = true
          /\ exists l, tryBlockLog this l
             /\ checkout (this, log)
                = (true,
                   (setPaymentStatus paid this,
                    log ++ checkStockCalls (items this)
                        ++ [Charge (calculateTotal this) (customerEmail this)
                                   (orderId this)]
                        ++ l ++ [confirmation this paid])))
      \/ (items this <> [] /\ inStock log (items this)
          /\ (calculateTotal this <=? 0)%float = false
          /\ (0 <? calculateTotal this)%float = false
          /\ paymentStatus this = paid
          /\ exists l, tryBlockLog this l
             /\ checkout (this, log)
                = (true,
                   (this,
                    log ++ checkStockCalls (items this)
                        ++ l ++ [confirmation this paid])))
      \/ (items this <> [] /\ inStock log (items this)
          /\ (calculateTotal this <=? 0)%float = false
          /\ (0 <? calculateTotal this)%float = false
          /\ paymentStatus this <> paid
          /\ checkout (this, log)
             = (true,
                (this,
                 log ++ checkStockCalls (items this)
                     ++ [confirmation this (paymentStatus this)])))).
Proof.
  destruct (items this) as [| i0 rest] eqn:Hitems.
  { left. split; [reflexivity |]. unfold processOrder. now rewrite Hitems. }
  rewrite <- Hitems.
  assert (Hne : items this <> []) by (rewrite Hitems; discriminate).
  destruct (inStockAlong_or_first_failure inventoryService (items this) log)
    as [Hstock | (pre & item & post & Hl & Hpre & Hitem)].
  2:{ right. left. exists pre, item, post. split; [assumption |].
      unfold processOrder. rewrite Hl.
      replace (List.length (pre ++ item :: post) =? 0)%nat with false
        by (now destruct pre).
      now rewrite stockCheckLoop_fail. }
  right. right.
  destruct (nonempty_length _ Hne) as [Hlen Hlen'].
  unfold processOrder.
  rewrite Hlen, (stockCheckLoop_pass _ _ _ _ Hstock). cbv beta iota zeta.
  rewrite Hlen'.
  destruct (calculateTotal this <=? 0)%float eqn:Hle; cbn [andb].
  - left. split; [assumption |]. split; [assumption |]. split; [reflexivity |].
    cbv beta iota zeta. cbn [paymentStatus setPaymentStatus items].
    destruct (tryBlock_shape this
                ((log ++ checkStockCalls (items this))
                   ++ [ConsoleWarn paymentSkippedMessage])) as (l & Hl & E).
    exists l. split; [assumption |].
    do 2 f_equal. cbn [orderId setPaymentStatus customerEmail].
    eapply eq_trans; [apply (f_equal2 (@app Event) E eq_refl) |].
    now rewrite <- !app_assoc.
  - right. destruct (0 <? calculateTotal this)%float eqn:Hlt.
    + destruct (charge paymentGateway _ _ _ _) eqn:Hc; cbn [negb].
      * right. left. split; [assumption |]. split; [assumption |].
        split; [reflexivity |].
        cbv beta iota zeta. cbn [paymentStatus setPaymentStatus items].
        destruct (tryBlock_shape this
                    ((log ++ checkStockCalls (items this))
                       ++ [Charge (calculateTotal this) (customerEmail this)
                                  (orderId this)])) as (l & Hl & E).
        exists l. split; [assumption |].
        do 2 f_equal. cbn [orderId setPaymentStatus customerEmail].
        eapply eq_trans; [apply (f_equal2 (@app Event) E eq_refl) |].
        now rewrite <- !app_assoc.
      * left. split; [assumption |]. split; [assumption |].
        split; [reflexivity |]. now rewrite <- !app_assoc.
    + right. right. cbv beta iota zeta.
      destruct (paymentStatus this) eqn:Hs.
      * right. repeat (split; [first [assumption | reflexivity | discriminate] |]).
        now rewrite <- !app_assoc.
      * left. repeat (split; [first [assumption | reflexivity] |]).
        destruct (tryBlock_shape this (log ++ checkStockCalls (items this)))
          as (l & Hl & E).
        exists l. split; [assumption |].
        do 2 f_equal.
        eapply eq_trans; [apply (f_equal2 (@app Event) E eq_refl) |].
        now rewrite <- !app_assoc.
      * right. repeat (split; [first [assumption | reflexivity | discriminate] |]).
        now rewrite <- !app_assoc.
Qed.

(** X12.  A checkout that goes through: on a non-empty order with every item
    in stock, once the status has become [paid] and every stock reduction
    resolves, [processOrder] returns true with the status [paid]; after the
    payment step it has reduced the stock of every item once, in order, and
    then sent the confirmation, which carries the order id, the items, the
    total and the status [paid]. *)
Theorem processOrder_success (this : OrderProcessor) (log payLog : Log) :
  items this <> [] ->
  inStock log (items this) ->
  becomesPaid paymentGateway this (log ++ checkStockCalls (items this)) payLog ->
  reduced ((log ++ checkStockCalls (items this)) ++ payLog) (items this) ->
  checkout (this, log)
  = (true,
     (setPaymentStatus paid this,
      (((log ++ checkStockCalls (items this)) ++ payLog)
         ++ reduceStockCalls (items this))
         ++ [SendOrderConfirmation (customerEmail this)
               (mkOrderDetails (orderId this) (items this)
                               (calculateTotal this) paid)])).
Proof.
  intros Hne Hstock Hpaid Hred.
  destruct (nonempty_length _ Hne) as [Hlen Hlen'].
  unfold processOrder. rewrite Hlen, (stockCheckLoop_pass _ _ _ _ Hstock).
  cbv beta iota zeta. rewrite Hlen'.
  destruct Hpaid as [Hle | Hpos Hcharge | Hle Hlt Hstatus].
  - rewrite Hle. cbn [andb]. cbv beta iota zeta.
    cbn [paymentStatus setPaymentStatus items].
    unfold paymentSkippedMessage in Hred |- *.
    now rewrite (reduceStockLoop_pass _ _ _ Hred).
  - rewrite (ltb_zero_not_leb _ Hpos), Hpos, Hcharge. cbn [andb negb].
    cbv beta iota zeta. cbn [paymentStatus setPaymentStatus items].
    now rewrite (reduceStockLoop_pass _ _ _ Hred).
  - rewrite Hle, Hlt. cbn [andb]. cbv beta iota zeta. rewrite Hstatus.
    rewrite app_nil_r in Hred. rewrite (reduceStockLoop_pass _ _ _ Hred).
    rewrite app_nil_r, <- Hstatus. now destruct this.
Qed.

(** X13.  A total that is NaN is neither [<= 0] nor [> 0]: on a non-empty
    order with every item in stock and a status other than [paid],
    [processOrder] then charges nothing, reduces no stock and leaves the
    status as it is, and still sends a confirmation, carrying that status
    and the NaN total, and returns true. *)
Theorem processOrder_nan_total (this : OrderProcessor) (log : Log) :
  items this <> [] ->
  inStock log (items this) ->
  is_nan (calculateTotal this) = true ->
  paymentStatus this <> paid ->
  checkout (this, log)
  = (true,
     (this,
      (log ++ checkStockCalls (items this))
        ++ [SendOrderConfirmation (customerEmail this)
              (mkOrderDetails (orderId this) (items this)
                              (calculateTotal this) (paymentStatus this))])).
Proof.
  intros Hne Hstock Hnan Hstatus.
  assert (Hcmp : (calculateTotal this <=? 0)%float = false
                 /\ (0 <? calculateTotal this)%float = false).
  { unfold is_nan in Hnan. rewrite eqb_spec in Hnan.
    rewrite ltb_spec, leb_spec, Prim2SF_zero.
    destruct (Prim2SF (calculateTotal this)) as [s | s | | s m e].
    - discriminate Hnan.
    - destruct s; discriminate Hnan.
    - now split.
    - exfalso. unfold SFeqb, SFcompare in Hnan.
      destruct s; rewrite Z.compare_refl, Pos.compare_cont_refl in Hnan;
        discriminate Hnan. }
  destruct Hcmp as [Hle Hlt].
  destruct (nonempty_length _ Hne) as [Hlen Hlen'].
  unfold processOrder. rewrite Hlen, (stockCheckLoop_pass _ _ _ _ Hstock).
  cbv beta iota zeta. rewrite Hle, Hlt. cbn [andb]. cbv beta iota zeta.
  destruct (paymentStatus this); [reflexivity | congruence | reflexivity].
Qed.

Lemma filter_checkStockCalls (p : Event -> bool) (l : list IOrderItem) :
  (forall itemId qty, p (CheckStock itemId qty) = false) ->
  filter p (checkStockCalls l) = [].
Proof.
  intros H. induction l as [| i l IH]; cbn; [reflexivity |]. now rewrite H.
Qed.

Lemma filter_reduceStockCalls (p : Event -> bool) (l : list IOrderItem) :
  (forall itemId qty, p (ReduceStock itemId qty) = false) ->
  filter p (reduceStockCalls l) = [].
Proof.
  intros H. induction l as [| i l IH]; cbn; [reflexivity |]. now rewrite H.
Qed.

Lemma filter_tryBlockLog (p : Event -> bool) (this : OrderProcessor) (l : Log) :
  (forall itemId qty, p (ReduceStock itemId qty) = false) ->
  (forall msg cause, p (ConsoleError msg cause) = false) ->
  tryBlockLog this l -> filter p l = [].
Proof.
  intros H1 H2 (done & caught & -> & [-> | (err & ->)]);
    rewrite filter_app, filter_reduceStockCalls by assumption; cbn;
    [reflexivity | now rewrite H2].
Qed.

Ltac filter_events :=
  rewrite ?filter_app;
  rewrite ?filter_checkStockCalls by reflexivity;
  rewrite ?filter_reduceStockCalls by reflexivity;
  repeat match goal with
         | T : tryBlockLog _ ?l |- context [filter ?p ?l] =>
             rewrite (filter_tryBlockLog p _ l (fun _ _ => eq_refl)
                        (fun _ _ => eq_refl) T)
         end;
  cbn [filter isCharge isConfirmation isPaymentFailed isReduceStock app].

(** X14.  [processOrder] only adds to the log, and in what it adds there is
    at most one charge.  When there is one, every item has been found in
    stock first, the amount is the total of the order, that total is
    positive, and the charge names the customer's email and the order id. *)
Theorem processOrder_charges_once (this : OrderProcessor) (log : Log) :
  exists new,
    snd (snd (checkout (this, log))) = log ++ new
    /\ (filter isCharge new = []
        \/ (filter isCharge new
            = [Charge (calculateTotal this) (customerEmail this) (orderId this)]
            /\ (0 <? calculateTotal this)%float = true
            /\ inStock log (items this)
            /\ exists rest,
                new = checkStockCalls (items this)
                      ++ Charge (calculateTotal this) (customerEmail this)
                                (orderId this) :: rest)).
Proof.
  destruct (processOrder_cases this log)
    as [(_ & E)
       | [(pre & item & post & _ & E)
         | [(_ & _ & _ & l & T & E)
           | [(_ & S & P & E)
             | [(_ & S & P & l & T & E)
               | [(_ & _ & _ & _ & _ & l & T & E)
                 | (_ & _ & _ & _ & _ & E)]]]]]];
    rewrite E; cbn [fst snd]; eexists; (split; [reflexivity |]).
  - now left.
  - left. now filter_events.
  - left. now filter_events.
  - right. filter_events. repeat (split; [first [reflexivity | assumption] |]).
    eexists. reflexivity.
  - right. filter_events. repeat (split; [first [reflexivity | assumption] |]).
    eexists. reflexivity.
  - left. now filter_events.
  - left. now filter_events.
Qed.

(** X15.  What the result of [processOrder] tells.  When it returns true it
    has sent exactly one confirmation, carrying the status it leaves, and no
    payment-failure notification.  When it returns false it has sent no
    confirmation and reduced no stock, and unless the order is empty it
    leaves the status [failed] and has sent exactly one payment-failure
    notification.  Stock is reduced only in a checkout that leaves the
    status [paid]. *)
Theorem processOrder_result_and_log (this : OrderProcessor) (log : Log) :
  exists new,
    snd (snd (checkout (this, log))) = log ++ new
    /\ (fst (checkout (this, log)) = true ->
        filter isConfirmation new
        = [confirmation this (paymentStatus (fst (snd (checkout (this, log)))))]
        /\ filter isPaymentFailed new = [])
    /\ (fst (checkout (this, log)) = false ->
        filter isConfirmation new = []
        /\ filter isReduceStock new = []
        /\ (items this <> [] ->
            paymentStatus (fst (snd (checkout (this, log)))) = failed
            /\ exists reason,
                filter isPaymentFailed new
                = [SendPaymentFailedNotification (customerEmail this) reason]))
    /\ (filter isReduceStock new <> [] ->
        paymentStatus (fst (snd (checkout (this, log)))) = paid).
Proof.
  destruct (processOrder_cases this log)
    as [(N & E)
       | [(pre & item & post & _ & E)
         | [(_ & _ & _ & l & T & E)
           | [(_ & S & P & E)
             | [(_ & S & P & l & T & E)
               | [(_ & _ & _ & _ & Hs & l & T & E)
                 | (_ & _ & _ & _ & _ & E)]]]]]];
    rewrite E; cbn [fst snd paymentStatus setPaymentStatus]; eexists;
    (split; [reflexivity |]);
    (split; [intros R; try discriminate R |
             split; [intros R; try discriminate R | intros R]]).
  all: filter_events.
  all: try (exfalso; apply R; now filter_events).
  - split; [reflexivity | split; [reflexivity |]].
    intros Hne. now destruct (Hne N).
  - split; [reflexivity | split; [reflexivity |]].
    intros _. split; [reflexivity | eexists; reflexivity].
  - now split.
  - reflexivity.
  - split; [reflexivity | split; [reflexivity |]].
    intros _. split; [reflexivity | eexists; reflexivity].
  - now split.
  - reflexivity.
  - rewrite Hs. now split.
  - assumption.
  - now split.
Qed.

End CheckoutOutcomes.

(** ** The sign of the total *)

Section NonNegativeTotal.

Local Open Scope Z_scope.

Lemma shr_nonneg (r : shr_record) (e n : Z) :
  0 <= shr_m r -> 0 <= shr_m (fst (shr r e n)).
Proof.
  intros H. unfold shr. destruct n as [| p | p]; cbn [fst]; try assumption.
  rewrite iter_shr_1_div by assumption.
  apply Z.div_pos; [assumption | apply Z.pow_pos_nonneg; lia].
Qed.

Lemma shr_fexp_nonneg (m e : Z) (l : location) :
  0 <= m -> 0 <= shr_m (fst (shr_fexp prec emax m e l)).
Proof.
  intros H. unfold shr_fexp. apply shr_nonneg.
  destruct l as [| []]; assumption.
Qed.

Lemma round_nearest_even_nonneg (m : Z) (l : location) :
  0 <= m -> 0 <= round_nearest_even m l.
Proof.
  intros H. destruct l as [| []]; cbn; try lia. destruct (Z.even m); lia.
Qed.

Lemma binary_round_aux_nonneg (m e : Z) (l : location) :
  0 <= m -> SFnonneg (binary_round_aux prec emax false m e l).
Proof.
  intros H. unfold binary_round_aux.
  pose proof (shr_fexp_nonneg m e l H) as H1.
  destruct (shr_fexp prec emax m e l) as [mrs' e']. cbn [fst] in H1.
  pose proof (round_nearest_even_nonneg _ (loc_of_shr_record mrs') H1) as H2.
  pose proof (shr_fexp_nonneg _ e' loc_Exact H2) as H3.
  destruct (shr_fexp prec emax
              (round_nearest_even (shr_m mrs') (loc_of_shr_record mrs')) e' loc_Exact)
    as [mrs'' e'']. cbn [fst] in H3.
  destruct (shr_m mrs'') as [| p | p]; [exact I | | lia].
  destruct (e'' <=? emax - prec); exact I.
Qed.

Lemma binary_round_nonneg (m : positive) (e : Z) :
  SFnonneg (binary_round prec emax false m e).
Proof.
  unfold binary_round. destruct (shl_align m e _) as [mz ez].
  apply binary_round_aux_nonneg. lia.
Qed.

Lemma SFmul_nonneg (x : spec_float) (m : positive) (e : Z) :
  SFnonneg x -> SFnonneg (SFmul prec emax x (S754_finite false m e)).
Proof.
  destruct x as [s | s | | s mx ex]; cbn [SFnonneg SFmul]; try contradiction;
    try destruct s; try contradiction; intros _; try exact I.
  cbn [xorb]. apply binary_round_aux_nonneg. lia.
Qed.

Lemma SFadd_nonneg (x y : spec_float) :
  valid_binary x = true -> valid_binary y = true ->
  SFnonneg x -> SFnonneg y -> SFnonneg (SFadd prec emax x y).
Proof.
  intros Vx Vy Hx Hy.
  destruct x as [sx | sx | | sx mx ex], y as [sy | sy | | sy my ey];
    try contradiction; try destruct sx; try destruct sy; try contradiction;
    try exact I.
  pose proof (SFadd_positive (S754_finite false mx ex) (S754_finite false my ey)
                Vx Vy eq_refl eq_refl) as P.
  unfold SFpositive in P.
  destruct (SFadd prec emax (S754_finite false mx ex) (S754_finite false my ey))
    as [s | s | | s m e]; try destruct s; try discriminate P; exact I.
Qed.

Lemma leb_zero_nonneg (x : number) :
  (0 <=? x)%float = true <-> SFnonneg (Prim2SF x).
Proof.
  rewrite leb_spec, Prim2SF_zero.
  destruct (Prim2SF x) as [s | s | | s m e]; cbn; try destruct s;
    split; try discriminate; try contradiction; auto.
Qed.

Lemma positive_finite (x : number) :
  (0 <? x)%float = true -> is_finite x = true ->
  exists m e, Prim2SF x = S754_finite false m e.
Proof.
  unfold is_finite, is_nan, is_infinity.
  rewrite ltb_spec, !eqb_spec, abs_spec, Prim2SF_zero.
  change (Prim2SF infinity) with (S754_infinity false).
  destruct (Prim2SF x) as [s | s | | s m e]; cbn; try destruct s;
    try discriminate; intros _ H; try discriminate H; eauto.
Qed.

Lemma mul_nonneg (p q : number) :
  (0 <=? p)%float = true -> (0 <? q)%float = true -> is_finite q = true ->
  (0 <=? p * q)%float = true.
Proof.
  intros Hp Hq Fq. apply leb_zero_nonneg. rewrite mul_spec.
  destruct (positive_finite q Hq Fq) as (m & e & ->).
  apply SFmul_nonneg. now apply leb_zero_nonneg.
Qed.

Lemma add_nonneg (x y : number) :
  (0 <=? x)%float = true -> (0 <=? y)%float = true -> (0 <=? x + y)%float = true.
Proof.
  intros Hx Hy. apply leb_zero_nonneg. rewrite add_spec.
  apply SFadd_nonneg; try apply Prim2SF_valid; now apply leb_zero_nonneg.
Qed.

Lemma sum_nonneg (l : list IOrderItem) : forall acc : number,
  Forall storedItemOk l ->
  Forall finiteQuantity l ->
  (0 <=? acc)%float = true ->
  (0 <=? fold_left (fun sum item => sum + price item * quantity item) l acc)%float
  = true.
Proof.
  induction l as [| i l IH]; intros acc Hok Hfin Hacc; cbn [fold_left].
  - assumption.
  - inversion Hok as [| ? ? [Hq Hp] Hok']; subst.
    inversion Hfin as [| ? ? Fq Hfin']; subst.
    apply IH; try assumption. apply add_nonneg; [assumption |].
    now apply mul_nonneg.
Qed.

Lemma SF2Prim_nonneg (x : spec_float) :
  SFnonneg x -> (0 <=? SF2Prim x)%float = true.
Proof.
  intros H. apply leb_zero_nonneg.
  destruct x as [s | s | | s m e]; try contradiction.
  - now destruct s.
  - destruct s; [contradiction | exact I].
  - destruct s; [contradiction |]. cbn [SF2Prim].
    rewrite Z_ldexp_spec, of_uint63_spec.
    pose proof (Uint63.to_Z_bounded (Uint63.of_Z (Z.pos m))) as [B _].
    destruct (Uint63.to_Z (Uint63.of_Z (Z.pos m))) as [| p | p]; [exact I | | lia].
    cbn [binary_normalize].
    pose proof (binary_round_nonneg p 0) as R.
    destruct (binary_round prec emax false p 0) as [s | s | | s m' e'];
      try contradiction; cbn [SFldexp]; try assumption.
    destruct s; [contradiction |]. apply binary_round_nonneg.
Qed.

Lemma ofHundredths_nonneg (n : Z) :
  0 <= n -> (0 <=? ofHundredths false n)%float = true.
Proof.
  intros Hn. destruct n as [| p | p]; [reflexivity | | lia].
  cbn [ofHundredths]. apply SF2Prim_nonneg.
  cbn [SFdiv xorb]. unfold SFdiv_core_binary.
  set (s := _ - _ - _).
  destruct (Z.div_eucl _ 100) as [q r] eqn:E.
  apply binary_round_aux_nonneg.
  match type of E with Z.div_eucl ?a _ = _ =>
    assert (Ha : 0 <= a) by (destruct s; try lia; apply Z.shiftl_nonneg; lia);
    pose proof (Z.div_pos a 100 Ha ltac:(lia)) as D;
    unfold Z.div in D; rewrite E in D
  end.
  exact D.
Qed.

Lemma rounding_nonneg (t : number) :
  (0 <=? t)%float = true -> (0 <=? parseFloat (toFixed2 t))%float = true.
Proof.
  intros H. pose proof (proj1 (leb_zero_nonneg t) H) as N. unfold toFixed2.
  destruct (Prim2SF t) as [s | s | | s m e]; try contradiction.
  - reflexivity.
  - destruct s; [contradiction | reflexivity].
  - destruct s; [contradiction |].
    destruct (atLeast1e21 m e); [assumption |].
    apply ofHundredths_nonneg, nearestHundredths_nonneg.
Qed.

Lemma nonneg_not_leb_positive (x : number) :
  (0 <=? x)%float = true -> (x <=? 0)%float = false -> (0 <? x)%float = true.
Proof.
  rewrite ltb_spec, !leb_spec, Prim2SF_zero.
  destruct (Prim2SF x) as [s | s | | s m e]; cbn; try destruct s; congruence.
Qed.

End NonNegativeTotal.

Lemma calculateTotal_nonneg_aux (this : OrderProcessor) :
  Forall storedItemOk (items this) ->
  Forall finiteQuantity (items this) ->
  (0 <=? calculateTotal this)%float = true.
Proof.
  intros Hok Hfin. unfold calculateTotal. apply rounding_nonneg.
  pose proof (sum_nonneg (items this) 0%float Hok Hfin eq_refl) as S.
  destruct (discountApplied this); [| assumption].
  apply mul_nonneg; [assumption | reflexivity | reflexivity].
Qed.

(** X16.  On an order whose stored quantities are finite and greater than 0
    and whose stored prices are at least 0, the total is a number and is at
    least 0, with or without the discount: rounding errors, overflow to
    [Infinity] and the discount never make it negative or NaN. *)
Theorem calculateTotal_nonneg (this : OrderProcessor) :
  Forall storedItemOk (items this) ->
  Forall finiteQuantity (items this) ->
  (0 <=? calculateTotal this)%float = true.
Proof.
  intros Hok Hfin. unfold calculateTotal. apply rounding_nonneg.
  pose proof (sum_nonneg (items this) 0%float Hok Hfin eq_refl) as S.
  destruct (discountApplied this); [| assumption].
  apply mul_nonneg; [assumption | reflexivity | reflexivity].
Qed.

(** X17.  On such an order a checkout that returns true has been paid for or
    was free: [processOrder] returns true only with the status [paid]. *)
Theorem processOrder_true_is_paid
  (inventoryService : IInventoryService) (paymentGateway : IPaymentGateway)
  (this : OrderProcessor) (log : Log) :
  Forall storedItemOk (items this) ->
  Forall finiteQuantity (items this) ->
  fst (processOrder inventoryService paymentGateway (this, log)) = true ->
  paymentStatus (fst (snd (processOrder inventoryService paymentGateway (this, log))))
  = paid.
Proof.
  intros Hok Hfin. pose proof (calculateTotal_nonneg_aux this Hok Hfin) as T.
  destruct (processOrder_cases inventoryService paymentGateway this log)
    as [(_ & E)
       | [(pre & item & post & _ & E)
         | [(_ & _ & _ & l & _ & E)
           | [(_ & _ & _ & E)
             | [(_ & _ & _ & l & _ & E)
               | [(_ & _ & _ & _ & Hs & l & _ & E)
                 | (_ & _ & Hle & Hlt & _ & E)]]]]]];
    rewrite E; cbn [fst snd paymentStatus setPaymentStatus];
    try discriminate; try reflexivity; intros _.
  - assumption.
  - rewrite (nonneg_not_leb_positive _ T Hle) in Hlt. discriminate Hlt.
Qed.

(** ** The further properties on the sample data *)

Lemma sample_absent (itemId : string) :
  itemId <> "prod1" -> itemId <> "prod2" -> idAbsent itemId (items twoItems).
Proof.
  intros N1 N2 i [<- | [<- | []]]; cbn; congruence.
Defined.

Lemma nothing_has_id (itemId : string) : idAbsent itemId [].
Proof. intros i []. Defined.

Lemma removeItem_absent_witness :
  idAbsent "nonExistentItemId" (items twoItems)
  /\ removeItem "nonExistentItemId" (twoItems, [])
     = (twoItems, [ConsoleWarn "Товар с ID nonExistentItemId не найден в заказе."]).
Proof.
  assert (A : idAbsent "nonExistentItemId" (items twoItems))
    by (apply sample_absent; discriminate).
  split; [exact A |]. exact (removeItem_absent _ twoItems [] A).
Defined.

Lemma removeItem_first_witness :
  items twoItems = [] ++ prod1 :: [prod2]
  /\ removeItem "prod1" (twoItems, []) = (setItems [prod2] sampleOrder, []).
Proof.
  split; [reflexivity |].
  exact (removeItem_first "prod1" twoItems [] [] prod1 [prod2] eq_refl
           (nothing_has_id _) eq_refl).
Defined.

Lemma addItem_removeItem_witness :
  accepted prod1 /\ idAbsent (id prod1) (items sampleOrder)
  /\ removeItem "prod1" (addItem prod1 (sampleOrder, [])) = (sampleOrder, []).
Proof.
  split; [reflexivity |]. split; [apply nothing_has_id |].
  exact (addItem_removeItem prod1 sampleOrder [] eq_refl (nothing_has_id _)).
Defined.

Lemma twoItems_unique : NoDup (map id (items twoItems)).
Proof.
  cbn. constructor.
  - intros [H | []]. discriminate H.
  - constructor; [intros [] | constructor].
Defined.

Lemma removeItem_id_gone_witness :
  NoDup (map id (items twoItems))
  /\ idAbsent "prod1" (items (fst (removeItem "prod1" (twoItems, [])))).
Proof.
  split; [exact twoItems_unique |].
  exact (removeItem_id_gone "prod1" twoItems [] twoItems_unique).
Defined.

Lemma prod1_not_prod2 : idAbsent (id moreProd2) [prod1].
Proof. intros i [<- | []]. discriminate. Defined.

Lemma addItem_existing_id_witness :
  accepted moreProd2
  /\ items twoItems = [prod1] ++ prod2 :: []
  /\ addItem moreProd2 (twoItems, [])
     = (setItems [prod1; mkItem "prod2" "Test Item prod2" 75 4] sampleOrder, []).
Proof.
  split; [reflexivity |]. split; [reflexivity |].
  exact (proj1 (addItem_existing_id moreProd2 twoItems [] [prod1] prod2 []
                  eq_refl eq_refl prod1_not_prod2 eq_refl)).
Defined.

Lemma addItem_new_id_witness :
  accepted prod1 /\ idAbsent (id prod1) (items sampleOrder)
  /\ addItem prod1 (sampleOrder, []) = (setItems [prod1] sampleOrder, [])
  /\ find (fun i => String.eqb (id i) "prod1")
          (items (fst (addItem prod1 (sampleOrder, [])))) = Some prod1.
Proof.
  split; [reflexivity |]. split; [apply nothing_has_id |].
  exact (addItem_new_id prod1 sampleOrder [] eq_refl (nothing_has_id _)).
Defined.

Lemma sample_calls_add_numbers :
  Forall addsNumbers
         [CallAddItem prod1; CallAddItem moreProd2; CallApplyDiscount "SALE10";
          CallRemoveItem "prod1"; CallProcessOrder].
Proof.
  repeat constructor.
Defined.

Lemma items_ok_kept_witness :
  Forall storedItemOk (items sampleOrder)
  /\ Forall storedItemOk
       (items (fst (invokeAll stocked accepts
                      [CallAddItem prod1; CallAddItem moreProd2;
                       CallApplyDiscount "SALE10"; CallRemoveItem "prod1";
                       CallProcessOrder]
                      (sampleOrder, [])))).
Proof.
  split; [constructor |].
  exact (items_ok_kept stocked accepts _ (sampleOrder, [])
           sample_calls_add_numbers (Forall_nil _)).
Defined.

Lemma twoItems_nonempty : items twoItems <> [].
Proof. discriminate. Defined.

Lemma stocked_reduced (log : Log) (l : list IOrderItem) : reducedAlong stocked log l.
Proof. intros pre x post _. reflexivity. Defined.

Lemma processOrder_success_witness :
  becomesPaid accepts twoItems ([] ++ checkStockCalls (items twoItems))
    [Charge 175 "test@example.com" "order-1"]
  /\ processOrder stocked accepts (twoItems, [])
     = (true,
        (setPaymentStatus paid twoItems,
         [CheckStock "prod1" 2; CheckStock "prod2" 1;
          Charge 175 "test@example.com" "order-1";
          ReduceStock "prod1" 2; ReduceStock "prod2" 1;
          SendOrderConfirmation "test@example.com"
            (mkOrderDetails "order-1" [prod1; prod2] 175 paid)])).
Proof.
  assert (P : becomesPaid accepts twoItems ([] ++ checkStockCalls (items twoItems))
                [Charge 175 "test@example.com" "order-1"])
    by exact (PaidByCharge accepts twoItems _ eq_refl eq_refl).
  split; [exact P |].
  exact (processOrder_success stocked accepts twoItems [] _ twoItems_nonempty
           (stocked_inStock _ _) P (stocked_reduced _ _)).
Defined.

Lemma nanOrder_not_paid : paymentStatus nanOrder <> paid.
Proof. discriminate. Defined.

Lemma nanOrder_nonempty : items nanOrder <> [].
Proof. discriminate. Defined.

Lemma processOrder_nan_total_witness :
  is_nan (calculateTotal nanOrder) = true
  /\ processOrder stocked accepts (nanOrder, [])
     = (true,
        (nanOrder,
         [CheckStock "item1" nan;
          SendOrderConfirmation "test@example.com"
            (mkOrderDetails "order-1" [nanItem] nan pending)])).
Proof.
  split; [reflexivity |].
  exact (processOrder_nan_total stocked accepts nanOrder [] nanOrder_nonempty
           (stocked_inStock _ _) eq_refl nanOrder_not_paid).
Defined.

Lemma twoItems_ok : Forall storedItemOk (items twoItems).
Proof. repeat constructor. Defined.

Lemma twoItems_finite : Forall finiteQuantity (items twoItems).
Proof. repeat constructor. Defined.

Lemma calculateTotal_nonneg_witness :
  Forall storedItemOk (items twoItems)
  /\ Forall finiteQuantity (items twoItems)
  /\ (0 <=? calculateTotal twoItems)%float = true.
Proof.
  split; [exact twoItems_ok |]. split; [exact twoItems_finite |].
  exact (calculateTotal_nonneg twoItems twoItems_ok twoItems_finite).
Defined.

Lemma processOrder_true_is_paid_witness :
  fst (processOrder stocked accepts (twoItems, [])) = true
  /\ paymentStatus (fst (snd (processOrder stocked accepts (twoItems, [])))) = paid.
Proof.
  split; [reflexivity |].
  exact (processOrder_true_is_paid stocked accepts twoItems []
           twoItems_ok twoItems_finite eq_refl).
Defined.

(** ** With a total that is a number, checkout does not depend on the status it finds *)

Section StatusIgnored.

Variable inventoryService : IInventoryService.
Variable paymentGateway : IPaymentGateway.

Local Abbreviation checkout := (processOrder inventoryService paymentGateway).

Lemma stockCheckLoop_status (l : list IOrderItem) :
  forall (this : OrderProcessor) (log : Log) (s : PaymentStatus),
    stockCheckLoop inventoryService l (setPaymentStatus s this, log)
    = match stockCheckLoop inventoryService l (this, log) with
      | (Some r, w) => (Some r, w)
      | (None, (t, lg)) => (None, (setPaymentStatus s t, lg))
      end.
Proof.
  induction l as [| item l IH]; intros this log s; cbn.
  - reflexivity.
  - destruct (checkStock inventoryService log (id item) (quantity item)); cbn.
    + apply IH.
    + reflexivity.
Qed.

Lemma calculateTotal_sameOrder (a b : OrderProcessor) :
  sameOrder a b -> calculateTotal b = calculateTotal a.
Proof.
  intros (H1 & H2 & _). unfold calculateTotal. now rewrite H1, H2.
Qed.

(** X18.  [processOrder] never reads the payment status before it pays:
    when the total is a number, the result and everything added to the log
    are the same whatever status the processor starts from, and on a
    non-empty order so is the state left behind.  A second checkout of a paid
    order therefore checks the stock and charges again. *)
Theorem processOrder_ignores_status
  (this : OrderProcessor) (log : Log) (s : PaymentStatus) :
  is_nan (calculateTotal this) = false ->
  fst (checkout (setPaymentStatus s this, log)) = fst (checkout (this, log))
  /\ snd (snd (checkout (setPaymentStatus s this, log)))
     = snd (snd (checkout (this, log)))
  /\ (items this <> [] ->
      fst (snd (checkout (setPaymentStatus s this, log)))
      = fst (snd (checkout (this, log)))).
Proof.
  intros Hnan. unfold processOrder. cbn [items setPaymentStatus].
  destruct (List.length (items this) =? 0)%nat eqn:Hlen.
  { repeat split. intros Hne.
    destruct (nonempty_length _ Hne) as [E _]. congruence. }
  change (mkOrderProcessor (items this) (customerEmail this) (discountApplied this)
            s (orderId this)) with (setPaymentStatus s this).
  rewrite stockCheckLoop_status.
  pose proof (stockCheckLoop_frame inventoryService (items this) this log) as [F _].
  destruct (stockCheckLoop inventoryService (items this) (this, log))
    as [[r |] [t lg]]; cbn [fst snd] in F |- *.
  { now repeat split. }
  pose proof (calculateTotal_sameOrder _ _ F) as T.
  change (calculateTotal (setPaymentStatus s t)) with (calculateTotal t).
  cbn [items customerEmail orderId setPaymentStatus].
  assert (Hpos : (0 <? List.length (items t))%nat = true).
  { destruct F as (Fi & _). rewrite <- Fi.
    destruct (items this); [discriminate Hlen | reflexivity]. }
  rewrite Hpos.
  destruct (calculateTotal t <=? 0)%float eqn:Hle.
  - cbn [andb]. now repeat split.
  - cbn [andb]. rewrite T in Hle.
    rewrite T, (not_leb_zero_positive _ Hnan Hle).
    destruct (charge paymentGateway lg _ _ _); now repeat split.
Qed.

End StatusIgnored.

Lemma processOrder_ignores_status_witness :
  is_nan (calculateTotal twoItems) = false
  /\ snd (snd (processOrder stocked accepts (setPaymentStatus paid twoItems, [])))
     = [CheckStock "prod1" 2; CheckStock "prod2" 1;
        Charge 175 "test@example.com" "order-1";
        ReduceStock "prod1" 2; ReduceStock "prod2" 1;
        SendOrderConfirmation "test@example.com"
          (mkOrderDetails "order-1" [prod1; prod2] 175 paid)].
Proof.
  split; [reflexivity |].
  exact (proj1 (proj2 (processOrder_ignores_status stocked accepts twoItems []
                         paid eq_refl))).
Defined.
